(** * OFB-CI-CD: OpenAPI validation and reference-resolution pipeline

    A shallow embedding of the two Go programs of the repository:
    the full pipeline (validate old, validate new, resolve old, resolve
    new) and the resolve-only pipeline ([rules/validator.go]).

    The programs are thin orchestration code over three libraries
    (gopkg.in/yaml.v3, pb33f/libopenapi/index, golang.org/x/text).  The
    libraries are not part of the repository: they enter the development
    as the fields of the class [Collaborators], and every theorem holds
    for every instance of that class.  The operating system (files,
    standard output, process exit) is an explicit [World] that the code
    threads through a small state-and-outcome monad. *)

From Stdlib Require Import ZArith String List.
From Stdlib.Strings Require Import Byte.
From stdpp Require Import base gmap strings list list_numbers.

Open Scope string_scope.
Open Scope list_scope.
Set Warnings "-register-all".

(** ** Data model *)

(** [[]byte] *)
Definition bytes := list byte.

(** A Go [interface{}] holding what yaml.v3 decodes a document into.  A Go
    map is kept as the list of its entries in the order in which the one
    [range] statement that walks it visits them; the language leaves that
    order unspecified, so nothing below may assume it is the order of the
    file.  Keys of a map are unique (yaml.v3 rejects duplicate keys). *)
Inductive value :=
| VNil
| VBool (b : bool)
| VInt (n : Z)
| VString (s : string)
| VSlice (xs : list value)
| VMap (m : list (string * value))      (* map[string]interface{} *)
| VMapI (m : list (value * value))      (* map[interface{}]interface{} *)
| VOther (goType : string).             (* any other dynamic type *)

(** [map[string]interface{}] *)
Definition gomap := list (string * value).

(** [m[k]]: the zero value of [interface{}], nil, when the key is absent
    (also on a nil map). *)
Fixpoint map_index (m : gomap) (k : string) : value :=
  match m with
  | [] => VNil
  | (k', v) :: m' => if String.eqb k' k then v else map_index m' k
  end.

(** The name [%T] prints for the dynamic type of a value; it is what a
    failed type assertion reports. *)
Definition go_type_name (v : value) : string :=
  match v with
  | VNil => "nil"
  | VBool _ => "bool"
  | VInt _ => "int"
  | VString _ => "string"
  | VSlice _ => "[]interface {}"
  | VMap _ => "map[string]interface {}"
  | VMapI _ => "map[interface {}]interface {}"
  | VOther t => t
  end.

(** Go [error] values.  An error made by [fmt.Errorf] is kept as its
    format string and operands; an error that comes out of a library or
    of the operating system is an opaque message. *)
Inductive error :=
| LibError (msg : string)
| Errorf (format : string) (args : list arg)
with arg :=
| AString (s : string)
| AValue (v : value)
| AError (e : error).

(** A Go [(T, error)] result: exactly one side is meaningful. *)
Definition result (A : Type) : Type := error + A.

(** ** The process and its world *)

Inductive event :=
| EvReadFile (path : string)
| EvWriteFile (path : string) (data : bytes)
| EvPrintln (args : list arg).

(** [files]: the files that can be read, with their contents;
    [readonly]: the paths [ioutil.WriteFile] cannot write;
    [trace]: every interaction of the process with the system, oldest
    first. *)
Record World := mkWorld {
  files : gmap string bytes;
  readonly : gset string;
  trace : list event
}.

(** How a Go computation ends: it returns, it panics, or it calls
    [os.Exit]. *)
Inductive outcome (A : Type) :=
| Ret (a : A)
| Panic (msg : string)
| Exit (code : Z).
Arguments Ret {A} a.
Arguments Panic {A} msg.
Arguments Exit {A} code.

Definition M (S A : Type) : Type := S -> outcome A * S.

Definition ret {S A} (a : A) : M S A := fun s => (Ret a, s).

Definition bind {S A B} (c : M S A) (k : A -> M S B) : M S B :=
  fun s =>
    match c s with
    | (Ret a, s') => k a s'
    | (Panic msg, s') => (Panic msg, s')
    | (Exit code, s') => (Exit code, s')
    end.

Definition panic {S A} (msg : string) : M S A := fun s => (Panic msg, s).

(** [os.Exit(code)] *)
Definition os_Exit {S A} (code : Z) : M S A := fun s => (Exit code, s).

Notation "x <- c ;; k" := (bind c (fun x => k))
  (at level 100, c at next level, right associativity).
Notation "c ;;; k" := (bind c (fun _ => k))
  (at level 100, right associativity).

(** [for _, x := range xs { body }] over a slice or, for a map, over its
    entries in visiting order. *)
Fixpoint for_range {S A} (xs : list A) (body : A -> M S unit) : M S unit :=
  match xs with
  | [] => ret tt
  | x :: xs' => body x ;;; for_range xs' body
  end.

(** A block that works on a local variable of type [L]: the variable
    starts as [l0], the block's final value of it is returned; a panic or
    an exit inside the block ends the enclosing computation too. *)
Definition with_local {S L A} (l0 : L) (c : M L A) : M S L :=
  fun s =>
    match c l0 with
    | (Ret _, l) => (Ret l, s)
    | (Panic msg, _) => (Panic msg, s)
    | (Exit code, _) => (Exit code, s)
    end.

(** The exit status the operating system sees: 0 when [main] returns, 2
    when the Go runtime ends the process on a panic, the argument of
    [os.Exit] otherwise. *)
Definition exit_status {A} (o : outcome A) : Z :=
  match o with
  | Ret _ => 0
  | Panic _ => 2
  | Exit code => code
  end.

Definition log (e : event) (w : World) : World :=
  mkWorld (files w) (readonly w) (trace w ++ [e]).

(** [fmt.Println(args...)] *)
Definition fmt_Println (args : list arg) : M World unit :=
  fun w => (Ret tt, log (EvPrintln args) w).

(** [ioutil.ReadFile(path)] *)
Definition ioutil_ReadFile (path : string) : M World (result bytes) :=
  fun w =>
    let w' := log (EvReadFile path) w in
    match files w !! path with
    | Some data => (Ret (inr data), w')
    | None =>
        (Ret (inl (LibError ("open " +:+ path +:+ ": no such file or directory"))), w')
    end.

(** [ioutil.WriteFile(path, data, 0644)]: creates or truncates the file.
    A failed write leaves the world as it was. *)
Definition ioutil_WriteFile (path : string) (data : bytes) : M World (option error) :=
  fun w =>
    if decide (path ∈ readonly w)
    then (Ret (Some (LibError ("open " +:+ path +:+ ": permission denied"))), w)
    else (Ret None,
          mkWorld (<[path := data]> (files w)) (readonly w)
                  (trace w ++ [EvWriteFile path data])).

(** ** The libraries the programs call *)

Inductive endianness := BigEndian | LittleEndian.

(** Everything the two programs take from yaml.v3, libopenapi and
    x/text.  The types are the libraries' own; the functions are the
    calls the source makes.  [IndexTheRolodex] and [Resolve] work on the
    root node through the pointer given to [SetRootNode]: they receive the
    node and hand back the node as they leave it.  The trace of a run
    holds the reads, writes and prints of the two programs themselves;
    what a library writes to standard output on its own, as libopenapi
    does when it logs while indexing, is not in it, and [Resolve], which
    returns nothing in the source, hands back the rolodex in which it
    records what it could not resolve. *)
Class Collaborators := {
  Node : Type;                (* yaml.Node *)
  SpecIndexConfig : Type;     (* *index.SpecIndexConfig *)
  SpecIndex : Type;           (* *index.SpecIndex *)
  Rolodex : Type;             (* *index.Rolodex *)
  Reference : Type;           (* *index.Reference *)
  (* golang.org/x/text/encoding/unicode: the UTF-16 decoder that
     BOMOverride switches to, applied to the bytes after the mark *)
  utf16_decode : endianness -> bytes -> result bytes;
  (* yaml.Unmarshal(data, &node) with node a yaml.Node *)
  yaml_Unmarshal_Node : bytes -> result Node;
  (* yaml.Unmarshal(data, &v) with v an interface{} *)
  yaml_Unmarshal_any : bytes -> result value;
  (* how yaml.v3 fills a map[string]interface{} from a top-level mapping
     some of whose keys are not strings *)
  yaml_string_keys : list (value * value) -> result gomap;
  yaml_Marshal : Node -> result bytes;
  CreateClosedAPIIndexConfig : SpecIndexConfig;
  NewSpecIndex : Node -> SpecIndexConfig -> SpecIndex;
  GetValidationErrors : SpecIndex -> list error;
  GetSecuritySchemes : SpecIndex -> option (list Reference);
  GetContactInfo : SpecIndex -> option Reference;
  GetAllServerURLs : SpecIndex -> list string;
  NewRolodex : SpecIndexConfig -> Rolodex;
  SetRootNode : Rolodex -> Node -> Rolodex;
  IndexTheRolodex : Rolodex -> Node -> option error * Rolodex * Node;
  Resolve : Rolodex -> Node -> Rolodex * Node
}.

(** [bytes.HasPrefix(s, prefix)] *)
Fixpoint bytes_HasPrefix (s prefix : bytes) : bool :=
  match prefix, s with
  | [], _ => true
  | _ :: _, [] => false
  | p :: prefix', b :: s' => Byte.eqb b p && bytes_HasPrefix s' prefix'
  end.

Definition utf16leBOM : bytes := [xff; xfe].
Definition utf16beBOM : bytes := [xfe; xff].
Definition utf8BOM : bytes := [xef; xbb; xbf].

(** The input begins with one of the three marks that
    [unicode.BOMOverride] looks for. *)
Definition has_BOM (data : bytes) : bool :=
  bytes_HasPrefix data utf16leBOM
  || bytes_HasPrefix data utf16beBOM
  || bytes_HasPrefix data utf8BOM.

Section Program.
Context `{Collaborators}.

(** Modelled from the spec: the transformer
    [unicode.BOMOverride(transform.Nop)] of golang.org/x/text, read to the
    end through [transform.NewReader]; the repository calls it and does
    not contain it.  Section 4.1: a leading byte-order mark is detected
    and stripped and the input transcoded to UTF-8; input without a mark
    is returned unchanged; the only failure is a transcoding error.  The
    marks are those x/text considers (UTF-16LE, UTF-16BE, UTF-8, tested
    in that order); after the UTF-8 mark the fallback [transform.Nop]
    copies the rest. *)
Definition BOMOverride_Nop (data : bytes) : result bytes :=
  if bytes_HasPrefix data utf16leBOM then utf16_decode LittleEndian (drop 2 data)
  else if bytes_HasPrefix data utf16beBOM then utf16_decode BigEndian (drop 2 data)
  else if bytes_HasPrefix data utf8BOM then inr (drop 3 data)
  else inr data.

Definition convertToUTF8 (data : bytes) : result bytes :=
  match BOMOverride_Nop data with
  | inl err => inl (Errorf "erro ao converter encoding para UTF-8: %v" [AError err])
  | inr convertedData => inr convertedData
  end.

Definition readFile (filePath : string) : M World (result bytes) :=
  r <- ioutil_ReadFile filePath ;;
  match r with
  | inl err =>
      ret (inl (Errorf "erro ao ler o arquivo %s: %v" [AString filePath; AError err]))
  | inr data =>
      match convertToUTF8 data with
      | inl err => ret (inl err)
      | inr utf8Data => ret (inr utf8Data)
      end
  end.

(** Modelled from the spec: [yaml.Unmarshal(data, &rules)] of yaml.v3 with
    [rules] a nil [map[string]interface{}]; the repository calls it and
    does not contain it.  Sections 4.3 and 7: a rule file is a mapping,
    and a malformed rule file is an error of loading.  As yaml.v3 has it,
    the decoded value must be compatible with the target: a mapping fills
    the map, a null or empty document leaves the map nil without an
    error, and any other document (a sequence, a scalar) is a type
    mismatch, reported as a [*yaml.TypeError]. *)
Definition yaml_Unmarshal_map (data : bytes) : result gomap :=
  match yaml_Unmarshal_any data with
  | inl err => inl err
  | inr VNil => inr []
  | inr (VMap m) => inr m
  | inr (VMapI m) => yaml_string_keys m
  | inr _ =>
      inl (LibError "yaml: unmarshal errors: cannot unmarshal the document into map[string]interface {}")
  end.

Definition loadRules (ruleFile : string) : M World (result gomap) :=
  r <- ioutil_ReadFile ruleFile ;;
  match r with
  | inl err => ret (inl (Errorf "erro ao ler regras YAML: %v" [AError err]))
  | inr data =>
      match yaml_Unmarshal_map data with
      | inl err =>
          ret (inl (Errorf "erro ao fazer unmarshal das regras: %v" [AError err]))
      | inr rules => ret (inr rules)
      end
  end.

(** [v.(map[string]interface{})] and [v.(string)], the one-result form of
    the type assertion: it panics when the dynamic type differs. *)
Definition assert_map {S} (v : value) : M S gomap :=
  match v with
  | VMap m => ret m
  | _ => panic ("interface conversion: interface {} is " +:+ go_type_name v
                +:+ ", not map[string]interface {}")
  end.

Definition assert_string {S} (v : value) : M S string :=
  match v with
  | VString s => ret s
  | _ => panic ("interface conversion: interface {} is " +:+ go_type_name v
                +:+ ", not string")
  end.

(** [validationErrors = append(validationErrors, e)] *)
Definition append_error (e : error) : M (list error) unit :=
  fun validationErrors => (Ret tt, validationErrors ++ [e]).

(** [fmt.Errorf("[%s] %s", severity, ruleData["description"])], the
    finding each of the three checks appends. *)
Definition rule_error (severity : string) (ruleData : gomap) : error :=
  Errorf "[%s] %s" [AString severity; AValue (map_index ruleData "description")].

(** The body of the loop over [rulesMap] in [validateOpenAPIWithRules];
    its state is the local slice [validationErrors]. *)
Definition applyRule (idx : SpecIndex) (entry : string * value)
  : M (list error) unit :=
  let '(ruleName, rule) := entry in
  ruleData <- assert_map rule ;;
  given <- assert_string (map_index ruleData "given") ;;
  severity <- assert_string (map_index ruleData "severity") ;;
  (if String.eqb given "$.components.securitySchemes" then
     match GetSecuritySchemes idx with
     | None => append_error (rule_error severity ruleData)
     | Some _ => ret tt
     end
   else ret tt) ;;;
  (if String.eqb given "$.info.contact" then
     match GetContactInfo idx with
     | None => append_error (rule_error severity ruleData)
     | Some _ => ret tt
     end
   else ret tt) ;;;
  (if String.eqb given "$.servers[*].url" then
     let servers := GetAllServerURLs idx in
     for_range servers (fun url =>
       if negb (bytes_HasPrefix (list_byte_of_string url)
                                (list_byte_of_string "https://"))
       then append_error (rule_error severity ruleData)
       else ret tt)
   else ret tt).

(** [for ruleName, rule := range rulesMap { ... }] *)
Definition applyRules (idx : SpecIndex) (rulesMap : gomap) : M (list error) unit :=
  for_range rulesMap (applyRule idx).

Definition validateOpenAPIWithRules (filePath rulesFile : string)
  : M World (option error) :=
  r <- readFile filePath ;;
  match r with
  | inl err => ret (Some err)
  | inr data =>
    match yaml_Unmarshal_Node data with
    | inl err => ret (Some (Errorf "erro ao fazer unmarshal do YAML: %v" [AError err]))
    | inr rootNode =>
      let indexConfig := CreateClosedAPIIndexConfig in
      let idx := NewSpecIndex rootNode indexConfig in
      let validationErrors := GetValidationErrors idx in
      r <- loadRules rulesFile ;;
      match r with
      | inl err => ret (Some err)
      | inr rules =>
        validationErrors <-
          match map_index rules "rules" with
          | VMap rulesMap => with_local validationErrors (applyRules idx rulesMap)
          | _ => ret validationErrors
          end ;;
        if (0 <? List.length validationErrors)%nat then
          for_range validationErrors (fun err =>
            fmt_Println [AString "❌ Erro de validação:"; AError err]) ;;;
          ret (Some (Errorf "falha na validação do OpenAPI" []))
        else
          fmt_Println [AString "✅ OpenAPI válido com regras aplicadas:";
                       AString filePath] ;;;
          ret None
      end
    end
  end.

(** The same function in both programs. *)
Definition resolveOpenAPI (inputFile outputFile : string) : M World (option error) :=
  r <- readFile inputFile ;;
  match r with
  | inl err => ret (Some err)
  | inr data =>
    match yaml_Unmarshal_Node data with
    | inl err => ret (Some (Errorf "erro ao fazer unmarshal do YAML: %v" [AError err]))
    | inr rootNode =>
      let indexConfig := CreateClosedAPIIndexConfig in
      let rolodex := NewRolodex indexConfig in
      let rolodex := SetRootNode rolodex rootNode in
      match IndexTheRolodex rolodex rootNode with
      | (Some err, _, _) =>
          ret (Some (Errorf "erro ao indexar as referências: %v" [AError err]))
      | (None, rolodex, rootNode) =>
        match Resolve rolodex rootNode with
        | (_, rootNode) =>
          match yaml_Marshal rootNode with
          | inl err => ret (Some (Errorf "erro ao converter para YAML: %v" [AError err]))
          | inr resolvedYAML =>
            e <- ioutil_WriteFile outputFile resolvedYAML ;;
            match e with
            | Some err =>
                ret (Some (Errorf "erro ao salvar arquivo resolvido: %v" [AError err]))
            | None =>
                fmt_Println [AString "✅ Arquivo resolvido salvo em:";
                             AString outputFile] ;;;
                ret None
            end
          end
        end
      end
    end
  end.

(** [if err := stage; err != nil { fmt.Println(...); os.Exit(1) }] *)
Definition exit_on_error (stage : M World (option error))
    (report : error -> list arg) : M World unit :=
  err <- stage ;;
  match err with
  | Some err => fmt_Println (report err) ;;; os_Exit 1
  | None => ret tt
  end.

(** [main] of the full pipeline; [Args] is [os.Args]. *)
Definition main (Args : list string) : M World unit :=
  if (List.length Args <? 4)%nat then
    fmt_Println [AString "Uso: go run main.go oldSwagger.yaml swagger.yaml pb33f_rules.yaml"]
  else
    let oldFile := nth 1 Args "" in
    let newFile := nth 2 Args "" in
    let rulesFile := nth 3 Args "" in
    exit_on_error (validateOpenAPIWithRules oldFile rulesFile)
      (fun _ => [AString "❌ OpenAPI inválido:"; AString oldFile]) ;;;
    exit_on_error (validateOpenAPIWithRules newFile rulesFile)
      (fun _ => [AString "❌ OpenAPI inválido:"; AString newFile]) ;;;
    exit_on_error (resolveOpenAPI oldFile "oldSwaggerResolve.yaml")
      (fun err => [AString "❌ Erro ao processar oldSwagger.yaml:"; AError err]) ;;;
    exit_on_error (resolveOpenAPI newFile "swaggerResolve.yaml")
      (fun err => [AString "❌ Erro ao processar swagger.yaml:"; AError err]) ;;;
    fmt_Println [AString "🚀 OpenAPI validado com regras aplicadas e arquivos resolvidos gerados com sucesso!"].

End Program.

(** The resolve-only program, [rules/validator.go].  Its [convertToUTF8],
    [readFile] and [resolveOpenAPI] are, line for line, those of the full
    pipeline; only [main] differs. *)
Module ResolveOnly.
Section Program.
Context `{Collaborators}.

Definition main (Args : list string) : M World unit :=
  if (List.length Args <? 3)%nat then
    fmt_Println [AString "Uso: go run main.go oldSwagger.yaml swagger.yaml"]
  else
    let oldFile := nth 1 Args "" in
    let newFile := nth 2 Args "" in
    exit_on_error (resolveOpenAPI oldFile "oldSwaggerResolve.yaml")
      (fun err => [AString "❌ Erro ao processar oldSwagger.yaml:"; AError err]) ;;;
    exit_on_error (resolveOpenAPI newFile "swaggerResolve.yaml")
      (fun err => [AString "❌ Erro ao processar swagger.yaml:"; AError err]) ;;;
    fmt_Println [AString "🚀 OpenAPI validado e arquivos resolvidos gerados com sucesso!"].

End Program.
End ResolveOnly.


(** ** What the rule engine is meant to compute

    The definitions of this section follow the words of the design
    (sections 4.3 and 4.5); the theorems below compare them with the
    code. *)

Section Design.
Context `{Collaborators}.

(** A rule object with its two required fields, both strings. *)
Definition well_formed_rule (rule : value) : bool :=
  match rule with
  | VMap ruleData =>
      match map_index ruleData "given", map_index ruleData "severity" with
      | VString _, VString _ => true
      | _, _ => false
      end
  | _ => false
  end.

(** A rule object in which [given] or [severity] is missing. *)
Definition lacks_required_field (rule : value) : bool :=
  match rule with
  | VMap ruleData =>
      match map_index ruleData "given", map_index ruleData "severity" with
      | VNil, _ => true
      | _, VNil => true
      | _, _ => false
      end
  | _ => false
  end.

Definition selector_of (rule : value) : string :=
  match rule with
  | VMap ruleData =>
      match map_index ruleData "given" with VString g => g | _ => "" end
  | _ => ""
  end.

Definition severity_of (rule : value) : string :=
  match rule with
  | VMap ruleData =>
      match map_index ruleData "severity" with VString s => s | _ => "" end
  | _ => ""
  end.

Definition rule_data_of (rule : value) : gomap :=
  match rule with VMap ruleData => ruleData | _ => [] end.


(** The test the server rule applies to a URL: it begins with the bytes
    [https://]. *)
Definition is_https (url : string) : bool :=
  bytes_HasPrefix (list_byte_of_string url) (list_byte_of_string "https://").

(** The findings one rule contributes, per selector: one if no security
    scheme is declared; one if there is no contact metadata; one per
    server URL that is not https, in server-list order; none for any
    other selector. *)
Definition findings_of (idx : SpecIndex) (rule : value) : list error :=
  let finding := rule_error (severity_of rule) (rule_data_of rule) in
  let given := selector_of rule in
  if String.eqb given "$.components.securitySchemes" then
    match GetSecuritySchemes idx with None => [finding] | Some _ => [] end
  else if String.eqb given "$.info.contact" then
    match GetContactInfo idx with None => [finding] | Some _ => [] end
  else if String.eqb given "$.servers[*].url" then
    map (fun _ => finding)
        (List.filter (fun url => negb (is_https url)) (GetAllServerURLs idx))
  else [].

(** How many findings a rule with the given selector contributes. *)
Definition finding_count (idx : SpecIndex) (given : string) : nat :=
  if String.eqb given "$.components.securitySchemes" then
    match GetSecuritySchemes idx with None => 1 | Some _ => 0 end
  else if String.eqb given "$.info.contact" then
    match GetContactInfo idx with None => 1 | Some _ => 0 end
  else if String.eqb given "$.servers[*].url" then
    List.length (List.filter (fun url => negb (is_https url)) (GetAllServerURLs idx))
  else 0.

(** The selectors of a rule set, in visiting order. *)
Definition selectors (rulesMap : gomap) : list string :=
  map (fun entry => selector_of (snd entry)) rulesMap.

Definition builtin_selectors : list string :=
  ["$.components.securitySchemes"; "$.info.contact"; "$.servers[*].url"].

(** The findings of a rule set, rule by rule in visiting order. *)
Definition rule_findings (idx : SpecIndex) (rulesMap : gomap) : list error :=
  concat (map (fun entry => findings_of idx (snd entry)) rulesMap).

Definition is_server_rule (entry : string * value) : bool :=
  String.eqb (selector_of (snd entry)) "$.servers[*].url".

(** The order of section 4.3 read as three blocks: the indexer's
    findings, then the findings of the rules other than the server rule,
    then the per-URL findings. *)
Definition three_block_order (idx : SpecIndex) (rulesMap : gomap) : list error :=
  GetValidationErrors idx
  ++ rule_findings idx (List.filter (fun entry => negb (is_server_rule entry)) rulesMap)
  ++ rule_findings idx (List.filter is_server_rule rulesMap).

(** The aggregated finding sequence of [validateOpenAPIWithRules]: the
    value of [validationErrors] when the loop over the rules is left,
    together with how the loop ended. *)
Definition aggregate (idx : SpecIndex) (rules : gomap) : outcome unit * list error :=
  match map_index rules "rules" with
  | VMap rulesMap => applyRules idx rulesMap (GetValidationErrors idx)
  | _ => (Ret tt, GetValidationErrors idx)
  end.

(** A rule with its declared severity [s] replaced by [f s], and a rule
    set with every rule so changed. *)
Definition change_field (f : string -> string) (field : string * value)
  : string * value :=
  (fst field,
   if String.eqb (fst field) "severity"
   then match snd field with VString s => VString (f s) | v => v end
   else snd field).

Definition with_severity (f : string -> string) (rule : value) : value :=
  match rule with
  | VMap ruleData => VMap (map (change_field f) ruleData)
  | v => v
  end.

Definition map_severity (f : string -> string) (rulesMap : gomap) : gomap :=
  map (fun entry : string * value => (fst entry, with_severity f (snd entry)))
      rulesMap.

(** The top level of a rule file is a mapping whose [rules] entry is a
    mapping with string keys. *)
Definition has_rules_mapping (doc : value) : bool :=
  match doc with
  | VMap m => match map_index m "rules" with VMap _ => true | _ => false end
  | _ => false
  end.

(** The stages of the driver, in order, each with the line it prints
    when it fails. *)
Definition stage : Type := M World (option error) * (error -> list arg).

Definition pipeline (oldFile newFile rulesFile : string) : list stage :=
  [ (validateOpenAPIWithRules oldFile rulesFile,
     fun _ => [AString "❌ OpenAPI inválido:"; AString oldFile]);
    (validateOpenAPIWithRules newFile rulesFile,
     fun _ => [AString "❌ OpenAPI inválido:"; AString newFile]);
    (resolveOpenAPI oldFile "oldSwaggerResolve.yaml",
     fun err => [AString "❌ Erro ao processar oldSwagger.yaml:"; AError err]);
    (resolveOpenAPI newFile "swaggerResolve.yaml",
     fun err => [AString "❌ Erro ao processar swagger.yaml:"; AError err]) ].

(** The world after the given stages have all succeeded, one after the
    other; [None] when one of them does not return nil. *)
Fixpoint run_succeeding (stages : list stage) (w : World) : option World :=
  match stages with
  | [] => Some w
  | (action, _) :: stages' =>
      match action w with
      | (Ret None, w') => run_succeeding stages' w'
      | _ => None
      end
  end.

(** Every rule of the set has its two required fields. *)
Definition all_well_formed (rulesMap : gomap) : bool :=
  forallb (fun entry => well_formed_rule (snd entry)) rulesMap.

(** What the Go runtime reports when the loop body meets a rule that is
    not well formed: the message of the first type assertion that fails,
    on the rule object, on [given] or on [severity]. *)
Definition not_string (v : value) : string :=
  "interface conversion: interface {} is " +:+ go_type_name v +:+ ", not string".

Definition rule_panic (rule : value) : string :=
  match rule with
  | VMap ruleData =>
      match map_index ruleData "given" with
      | VString _ => not_string (map_index ruleData "severity")
      | v => not_string v
      end
  | v => "interface conversion: interface {} is " +:+ go_type_name v
         +:+ ", not map[string]interface {}"
  end.

(** The lines [validateOpenAPIWithRules] prints for a slice of findings. *)
Definition print_findings (errs : list error) : list event :=
  map (fun err => EvPrintln [AString "❌ Erro de validação:"; AError err]) errs.

(** Both inputs of a validation load: the document is read, normalized
    and parsed into [root], the rule file is read and decoded into
    [rules]. *)
Definition loads (filePath rulesFile : string) (w : World)
    (root : Node) (rules : gomap) : Prop :=
  exists raw data ruleBytes,
    files w !! filePath = Some raw
    /\ convertToUTF8 raw = inr data
    /\ yaml_Unmarshal_Node data = inr root
    /\ files w !! rulesFile = Some ruleBytes
    /\ yaml_Unmarshal_map ruleBytes = inr rules.

(** The world once a validation has read its two inputs. *)
Definition after_reads (filePath rulesFile : string) (w : World) : World :=
  log (EvReadFile rulesFile) (log (EvReadFile filePath) w).

(** The verdict on an aggregated sequence of findings: any finding fails
    the validation, whatever its severity. *)
Definition verdict (filePath : string) (findings : list error) (w : World)
  : outcome (option error) * World :=
  match findings with
  | [] =>
      (Ret None,
       log (EvPrintln [AString "✅ OpenAPI válido com regras aplicadas:";
                       AString filePath]) w)
  | _ :: _ =>
      (Ret (Some (Errorf "falha na validação do OpenAPI" [])),
       mkWorld (files w) (readonly w) (trace w ++ print_findings findings))
  end.

(** Section 4.3 on an incomplete rule file, as it is worded: loading
    fails with an error, or else evaluation is abandoned before any rule
    has been evaluated, so that the findings are still the indexer's. *)
Definition rejected_unevaluated (idx : SpecIndex) (ruleFile : string)
    (w : World) : Prop :=
  (exists err, fst (loadRules ruleFile w) = Ret (inl err))
  \/ (forall rules rulesMap,
        fst (loadRules ruleFile w) = Ret (inr rules) ->
        map_index rules "rules" = VMap rulesMap ->
        exists msg,
          applyRules idx rulesMap (GetValidationErrors idx)
          = (Panic msg, GetValidationErrors idx)).

(** A rule file is tolerated when, being well-formed YAML without a
    usable [rules] mapping, it still loads. *)
Definition tolerated_without_rules (ruleFile : string) (w : World) : Prop :=
  forall data doc,
    files w !! ruleFile = Some data ->
    yaml_Unmarshal_any data = inr doc ->
    has_rules_mapping doc = false ->
    exists rules, fst (loadRules ruleFile w) = Ret (inr rules).

(** The driver as the design states it: the stages run left to right and
    the first failure ends the process with status 1. *)
Fixpoint run_stages (stages : list stage) : M World unit :=
  match stages with
  | [] => ret tt
  | (action, report) :: stages' =>
      exit_on_error action report ;;; run_stages stages'
  end.

(** A stage that never calls [os.Exit] itself. *)
Definition never_exits (s : stage) : Prop :=
  forall w code, fst (fst s w) <> Exit code.

(** The events a run added to the trace are free of writes, and its reads
    are of the listed paths only. *)
Definition quiet_event (paths : list string) (e : event) : bool :=
  match e with
  | EvReadFile p => existsb (String.eqb p) paths
  | EvWriteFile _ _ => false
  | EvPrintln _ => true
  end.

(** A run from [w] to [w'] that wrote nothing and read the listed paths
    only. *)
Definition quiet_run (paths : list string) (w w' : World) : Prop :=
  files w' = files w
  /\ readonly w' = readonly w
  /\ exists events,
       trace w' = trace w ++ events
       /\ forallb (quiet_event paths) events = true.

(** The serialized YAML [resolveOpenAPI] computes from the raw bytes of
    its input file, or the error it returns instead. *)
Definition resolved_bytes (raw : bytes) : result bytes :=
  match convertToUTF8 raw with
  | inl err => inl err
  | inr data =>
    match yaml_Unmarshal_Node data with
    | inl err => inl (Errorf "erro ao fazer unmarshal do YAML: %v" [AError err])
    | inr rootNode =>
      match IndexTheRolodex
              (SetRootNode (NewRolodex CreateClosedAPIIndexConfig) rootNode)
              rootNode with
      | (Some err, _, _) =>
          inl (Errorf "erro ao indexar as referências: %v" [AError err])
      | (None, rolodex, rootNode) =>
        match yaml_Marshal (snd (Resolve rolodex rootNode)) with
        | inl err => inl (Errorf "erro ao converter para YAML: %v" [AError err])
        | inr resolvedYAML => inr resolvedYAML
        end
      end
    end
  end.

End Design.

(** ** A small stand-in for the libraries

    An instance of [Collaborators] that can be run: its YAML decoder knows
    the handful of documents listed in [documents], its index reads the
    three facts off the decoded document, and its resolver reports a
    top-level [$ref] as dangling and leaves every other document as it
    is.  It serves to run the programs on concrete files. *)

Module Demo.

Definition doc_valid : string :=
  "{openapi: 3.0.0, info: {title: t, contact: {name: api}}, components: {securitySchemes: {key: {type: http}}}, servers: [{url: 'https://example.com'}]}".

Definition doc_invalid : string :=
  "{openapi: 3.0.0, info: {title: t}, servers: [{url: 'http://example.com'}]}".

Definition doc_dangling : string := "{$ref: '#/missing'}".

Definition rules_builtin : string :=
  "{rules: {security: {given: '$.components.securitySchemes', severity: error, description: no security scheme}, contact: {given: '$.info.contact', severity: warn, description: no contact}, https: {given: '$.servers[*].url', severity: error, description: server is not https}}}".

Definition rules_unknown : string :=
  "{rules: {future: {given: '$.unknown.path', severity: info, description: later}}}".

Definition rules_incomplete : string :=
  "{rules: {contact: {given: '$.info.contact', severity: warn, description: no contact}, broken: {severity: error}}}".

Definition rules_relaxed : string :=
  "{rules: {security: {given: '$.components.securitySchemes', severity: hint, description: no security scheme}, contact: {given: '$.info.contact', severity: hint, description: no contact}, https: {given: '$.servers[*].url', severity: hint, description: server is not https}}}".

Definition rules_sequence : string := "[]".

Definition rules_empty : string := "{}".

Definition security_rule : value :=
  VMap [("given", VString "$.components.securitySchemes");
        ("severity", VString "error");
        ("description", VString "no security scheme")].

Definition contact_rule : value :=
  VMap [("given", VString "$.info.contact");
        ("severity", VString "warn");
        ("description", VString "no contact")].

Definition https_rule : value :=
  VMap [("given", VString "$.servers[*].url");
        ("severity", VString "error");
        ("description", VString "server is not https")].

Definition future_rule : value :=
  VMap [("given", VString "$.unknown.path");
        ("severity", VString "info");
        ("description", VString "later")].

Definition broken_rule : value := VMap [("severity", VString "error")].

Definition tree_valid : value :=
  VMap [("openapi", VString "3.0.0");
        ("info", VMap [("title", VString "t");
                       ("contact", VMap [("name", VString "api")])]);
        ("components",
         VMap [("securitySchemes",
                VMap [("key", VMap [("type", VString "http")])])]);
        ("servers", VSlice [VMap [("url", VString "https://example.com")]])].

Definition tree_invalid : value :=
  VMap [("openapi", VString "3.0.0");
        ("info", VMap [("title", VString "t")]);
        ("servers", VSlice [VMap [("url", VString "http://example.com")]])].

(** The documents the stand-in decoder knows, each with its decoding.  A
    map lists its entries in the order of the text. *)
Definition documents : list (string * value) :=
  [ (doc_valid, tree_valid);
    (doc_invalid, tree_invalid);
    (doc_dangling, VMap [("$ref", VString "#/missing")]);
    (rules_builtin,
     VMap [("rules", VMap [("security", security_rule);
                           ("contact", contact_rule);
                           ("https", https_rule)])]);
    (rules_relaxed,
     VMap [("rules", VMap (map_severity (fun _ => "hint")
                             [("security", security_rule);
                              ("contact", contact_rule);
                              ("https", https_rule)]))]);
    (rules_unknown, VMap [("rules", VMap [("future", future_rule)])]);
    (rules_incomplete,
     VMap [("rules", VMap [("contact", contact_rule); ("broken", broken_rule)])]);
    (rules_sequence, VSlice []);
    (rules_empty, VMap []);
    ("", VNil) ].

Fixpoint lookup_document (table : list (string * value)) (text : string)
  : result value :=
  match table with
  | [] => inl (LibError "yaml: document not known to the stand-in decoder")
  | (text', tree) :: table' =>
      if String.eqb text' text then inr tree else lookup_document table' text
  end.

Definition decode (data : bytes) : result value :=
  lookup_document documents (string_of_list_byte data).

Record node := mkNode { text : string; tree : value }.

Definition decode_node (data : bytes) : result node :=
  match decode data with
  | inl err => inl err
  | inr v => inr (mkNode (string_of_list_byte data) v)
  end.

Definition security_schemes (idx : value) : option (list unit) :=
  match map_index (rule_data_of (map_index (rule_data_of idx) "components"))
                  "securitySchemes" with
  | VNil => None
  | _ => Some []
  end.

Definition contact_info (idx : value) : option unit :=
  match map_index (rule_data_of (map_index (rule_data_of idx) "info")) "contact" with
  | VNil => None
  | _ => Some tt
  end.

Definition server_urls (idx : value) : list string :=
  match map_index (rule_data_of idx) "servers" with
  | VSlice servers =>
      flat_map (fun server =>
                  match map_index (rule_data_of server) "url" with
                  | VString url => [url]
                  | _ => []
                  end) servers
  | _ => []
  end.

Definition index_the_rolodex (r : unit) (n : node) : option error * unit * node :=
  match map_index (rule_data_of (tree n)) "$ref" with
  | VString target =>
      (Some (LibError ("component '" +:+ target
                       +:+ "' does not exist in the specification")), r, n)
  | _ => (None, r, n)
  end.

#[export] Instance collaborators : Collaborators := {|
  Node := node;
  SpecIndexConfig := unit;
  SpecIndex := value;
  Rolodex := unit;
  Reference := unit;
  utf16_decode := fun _ _ => inl (LibError "encoding: UTF-16 is not supported by the stand-in");
  yaml_Unmarshal_Node := decode_node;
  yaml_Unmarshal_any := decode;
  yaml_string_keys := fun _ => inl (LibError "yaml: unmarshal errors: invalid map key");
  yaml_Marshal := fun n => inr (list_byte_of_string (text n));
  CreateClosedAPIIndexConfig := tt;
  NewSpecIndex := fun n _ => tree n;
  GetValidationErrors := fun _ => [];
  GetSecuritySchemes := security_schemes;
  GetContactInfo := contact_info;
  GetAllServerURLs := server_urls;
  NewRolodex := fun _ => tt;
  SetRootNode := fun r _ => r;
  IndexTheRolodex := index_the_rolodex;
  Resolve := fun r n => (r, n)
|}.

Definition node_valid : node := mkNode doc_valid tree_valid.
Definition node_invalid : node := mkNode doc_invalid tree_invalid.

Definition builtin_map : gomap :=
  [("security", security_rule); ("contact", contact_rule); ("https", https_rule)].

(** A visiting order in which the server rule comes before the contact
    rule. *)
Definition https_first_map : gomap :=
  [("https", https_rule); ("contact", contact_rule)].

Definition incomplete_map : gomap :=
  [("contact", contact_rule); ("broken", broken_rule)].

Definition file (name content : string) : string * bytes :=
  (name, list_byte_of_string content).

(** A working directory with the sample documents and rule files. *)
Definition disk : gmap string bytes :=
  list_to_map
    [ file "old.yaml" doc_valid;
      file "new.yaml" doc_valid;
      file "invalid.yaml" doc_invalid;
      file "dangling.yaml" doc_dangling;
      file "rules.yaml" rules_builtin;
      file "relaxed.yaml" rules_relaxed;
      file "unknown.yaml" rules_unknown;
      file "incomplete.yaml" rules_incomplete;
      file "sequence.yaml" rules_sequence;
      file "empty.yaml" rules_empty ].

Definition world : World := mkWorld disk ∅ [].

Definition demo_args : list string :=
  ["pipeline"; "invalid.yaml"; "new.yaml"; "rules.yaml"].

Definition falha : error := Errorf "falha na validação do OpenAPI" [].

(** The three findings of the built-in rules on [doc_invalid]. *)
Definition demo_findings : list error :=
  [ Errorf "[%s] %s" [AString "error"; AValue (VString "no security scheme")];
    Errorf "[%s] %s" [AString "warn"; AValue (VString "no contact")];
    Errorf "[%s] %s" [AString "error"; AValue (VString "server is not https")] ].

End Demo.


(** ** What a run did, read off its trace *)

(** The paths read, the writes made and the lines printed, oldest
    first. *)
Definition reads_of (events : list event) : list string :=
  flat_map (fun e => match e with EvReadFile p => [p] | _ => [] end) events.

Definition writes_of (events : list event) : list (string * bytes) :=
  flat_map (fun e => match e with EvWriteFile p d => [(p, d)] | _ => [] end)
           events.

Definition lines_of (events : list event) : list (list arg) :=
  flat_map (fun e => match e with EvPrintln args => [args] | _ => [] end) events.

(** The lines a validation prints once it has its findings. *)
Definition verdict_lines (filePath : string) (findings : list error)
  : list event :=
  match findings with
  | [] => [EvPrintln [AString "✅ OpenAPI válido com regras aplicadas:";
                      AString filePath]]
  | _ :: _ => print_findings findings
  end.

(** The two files the drivers write. *)
Definition old_output : string := "oldSwaggerResolve.yaml".
Definition new_output : string := "swaggerResolve.yaml".

(** A run from [w] to [w'] that left every path outside [paths] with the
    content it had, changed no permission and wrote to [paths] only. *)
Definition writes_within (paths : list string) (e : event) : bool :=
  match e with
  | EvWriteFile p _ => existsb (String.eqb p) paths
  | _ => true
  end.

Definition frame_run (paths : list string) (w w' : World) : Prop :=
  readonly w' = readonly w
  /\ (forall p, existsb (String.eqb p) paths = false ->
                files w' !! p = files w !! p)
  /\ exists events,
       trace w' = trace w ++ events
       /\ forallb (writes_within paths) events = true.

(** The stages of the resolve-only driver. *)
Definition resolve_pipeline `{Collaborators} (oldFile newFile : string)
  : list stage :=
  [ (resolveOpenAPI oldFile "oldSwaggerResolve.yaml",
     fun err => [AString "❌ Erro ao processar oldSwagger.yaml:"; AError err]);
    (resolveOpenAPI newFile "swaggerResolve.yaml",
     fun err => [AString "❌ Erro ao processar swagger.yaml:"; AError err]) ].

(** Both documents have been resolved and saved: the old one from the
    files as they were, the new one from the files as the first save left
    them, each into its output file. *)
Definition both_resolved `{Collaborators} (oldFile newFile : string)
    (before after : gmap string bytes) : Prop :=
  exists rawOld rawNew resolvedOld resolvedNew,
    before !! oldFile = Some rawOld
    /\ resolved_bytes rawOld = inr resolvedOld
    /\ <[old_output := resolvedOld]> before !! newFile = Some rawNew
    /\ resolved_bytes rawNew = inr resolvedNew
    /\ after = <[new_output := resolvedNew]> (<[old_output := resolvedOld]> before)
    /\ after !! old_output = Some resolvedOld
    /\ after !! new_output = Some resolvedNew.

(** The line [resolveOpenAPI] prints when it has saved its output. *)
Definition saved_line (outputFile : string) : event :=
  EvPrintln [AString "✅ Arquivo resolvido salvo em:"; AString outputFile].

(** ** More sample files

    A second stand-in, which differs from [Demo] in that its decoder also
    knows [rules_reversed], the three built-in rules visited in the
    opposite order; and a working directory with two more files. *)

Module Samples.

Definition rules_reversed : string :=
  "{rules: {https: {given: '$.servers[*].url', severity: error, description: server is not https}, contact: {given: '$.info.contact', severity: warn, description: no contact}, security: {given: '$.components.securitySchemes', severity: error, description: no security scheme}}}".

Definition reversed_map : gomap :=
  [("https", Demo.https_rule); ("contact", Demo.contact_rule);
   ("security", Demo.security_rule)].

Definition documents : list (string * value) :=
  (rules_reversed, VMap [("rules", VMap reversed_map)]) :: Demo.documents.

Definition decode (data : bytes) : result value :=
  Demo.lookup_document documents (string_of_list_byte data).

Definition decode_node (data : bytes) : result Demo.node :=
  match decode data with
  | inl err => inl err
  | inr v => inr (Demo.mkNode (string_of_list_byte data) v)
  end.

Definition collaborators : Collaborators := {|
  Node := Demo.node;
  SpecIndexConfig := unit;
  SpecIndex := value;
  Rolodex := unit;
  Reference := unit;
  utf16_decode := fun _ _ => inl (LibError "encoding: UTF-16 is not supported by the stand-in");
  yaml_Unmarshal_Node := decode_node;
  yaml_Unmarshal_any := decode;
  yaml_string_keys := fun _ => inl (LibError "yaml: unmarshal errors: invalid map key");
  yaml_Marshal := fun n => inr (list_byte_of_string (Demo.text n));
  CreateClosedAPIIndexConfig := tt;
  NewSpecIndex := fun n _ => Demo.tree n;
  GetValidationErrors := fun _ => [];
  GetSecuritySchemes := Demo.security_schemes;
  GetContactInfo := Demo.contact_info;
  GetAllServerURLs := Demo.server_urls;
  NewRolodex := fun _ => tt;
  SetRootNode := fun r _ => r;
  IndexTheRolodex := Demo.index_the_rolodex;
  Resolve := fun r n => (r, n)
|}.

(** [garbage.yaml] is not YAML the decoders know; [reversed.yaml] holds
    the reversed rule set. *)
Definition disk : gmap string bytes :=
  <["garbage.yaml" := list_byte_of_string "{"]>
    (<["reversed.yaml" := list_byte_of_string rules_reversed]> Demo.disk).

Definition world : World := mkWorld disk ∅ [].

Definition good_args : list string :=
  ["pipeline"; "old.yaml"; "new.yaml"; "rules.yaml"].



Definition dangling_error : error :=
  Errorf "erro ao indexar as referências: %v"
    [AError (LibError "component '#/missing' does not exist in the specification")].

End Samples.

(** ** Four statements of the design as they are worded

    Each is compared with the code below, on a concrete input. *)

Section Worded.
Context `{Collaborators}.

(** The aggregated finding sequence of a validation of [filePath]
    against [rulesFile]: the indexer's findings for the document followed
    by the findings the rules of the file derive; a document that does
    not load has no finding, a rule file that does not load or has no
    [rules] mapping derives none. *)
Definition aggregated_findings (filePath rulesFile : string) (w : World)
  : list error :=
  match fst (readFile filePath w) with
  | Ret (inr data) =>
      match yaml_Unmarshal_Node data with
      | inr root =>
          let idx := NewSpecIndex root CreateClosedAPIIndexConfig in
          GetValidationErrors idx
          ++ match fst (loadRules rulesFile w) with
             | Ret (inr rules) =>
                 match map_index rules "rules" with
                 | VMap rulesMap => snd (applyRules idx rulesMap [])
                 | _ => []
                 end
             | _ => []
             end
      | inl _ => []
      end
  | _ => []
  end.

(** Section 4.3, the result: a validation returns an error if and only
    if the aggregated finding sequence is not empty. *)
Definition fails_iff_findings (filePath rulesFile : string) (w : World) : Prop :=
  (exists err,
      fst (validateOpenAPIWithRules filePath rulesFile w) = Ret (Some err))
  <-> aggregated_findings filePath rulesFile w <> [].


(** The scheme of a URL (RFC 3986, section 3.1): the text before the
    first colon, its letters taken without regard to case. *)
Definition to_lower (c : Ascii.ascii) : Ascii.ascii :=
  let n := Ascii.nat_of_ascii c in
  if (Nat.leb 65 n && Nat.leb n 90)%bool then Ascii.ascii_of_nat (n + 32) else c.

Fixpoint lower (s : string) : string :=
  match s with
  | EmptyString => EmptyString
  | String c s' => String (to_lower c) (lower s')
  end.

Fixpoint scheme_of (url : string) : option string :=
  match url with
  | EmptyString => None
  | String c rest =>
      if Ascii.eqb c (Ascii.ascii_of_nat 58) then Some EmptyString
      else match scheme_of rest with
           | Some scheme => Some (String c scheme)
           | None => None
           end
  end.

Definition scheme_is_https (url : string) : bool :=
  match scheme_of url with
  | Some scheme => String.eqb (lower scheme) "https"
  | None => false
  end.

(** Section 4.3 on the server rule: one finding per server URL whose
    scheme is not https, none for a URL whose scheme is https. *)
Definition one_finding_per_other_scheme (idx : SpecIndex) (name : string)
    (rule : value) (errs : list error) : Prop :=
  well_formed_rule rule = true ->
  selector_of rule = "$.servers[*].url" ->
  exists findings,
    applyRule idx (name, rule) errs = (Ret tt, errs ++ findings)
    /\ List.length findings
       = List.length (List.filter (fun url => negb (scheme_is_https url))
                                  (GetAllServerURLs idx)).




End Worded.

(** ** A stand-in whose resolver records what it cannot expand

    It differs from [Demo] in its rolodex, which is the list of the
    errors recorded so far: indexing reports nothing, and resolving
    records an error when the schema [Node] of the document refers to
    itself. *)

Module Cyclic.

Definition doc_cyclic : string :=
  "{openapi: 3.0.0, components: {schemas: {Node: {$ref: '#/components/schemas/Node'}}}}".

Definition tree_cyclic : value :=
  VMap [("openapi", VString "3.0.0");
        ("components",
         VMap [("schemas",
                VMap [("Node",
                       VMap [("$ref", VString "#/components/schemas/Node")])])])].

Definition documents : list (string * value) :=
  (doc_cyclic, tree_cyclic) :: Demo.documents.

Definition decode (data : bytes) : result value :=
  Demo.lookup_document documents (string_of_list_byte data).

Definition decode_node (data : bytes) : result Demo.node :=
  match decode data with
  | inl err => inl err
  | inr v => inr (Demo.mkNode (string_of_list_byte data) v)
  end.

Definition refers_to_itself (doc : value) : bool :=
  match map_index
          (rule_data_of
             (map_index
                (rule_data_of
                   (map_index (rule_data_of (map_index (rule_data_of doc)
                                                       "components"))
                              "schemas"))
                "Node"))
          "$ref" with
  | VString target => String.eqb target "#/components/schemas/Node"
  | _ => false
  end.

Definition resolve (recorded : list error) (n : Demo.node)
  : list error * Demo.node :=
  if refers_to_itself (Demo.tree n)
  then (recorded ++ [LibError "infinite circular reference detected: Node"], n)
  else (recorded, n).

Definition collaborators : Collaborators := {|
  Node := Demo.node;
  SpecIndexConfig := unit;
  SpecIndex := value;
  Rolodex := list error;
  Reference := unit;
  utf16_decode := fun _ _ => inl (LibError "encoding: UTF-16 is not supported by the stand-in");
  yaml_Unmarshal_Node := decode_node;
  yaml_Unmarshal_any := decode;
  yaml_string_keys := fun _ => inl (LibError "yaml: unmarshal errors: invalid map key");
  yaml_Marshal := fun n => inr (list_byte_of_string (Demo.text n));
  CreateClosedAPIIndexConfig := tt;
  NewSpecIndex := fun n _ => Demo.tree n;
  GetValidationErrors := fun _ => [];
  GetSecuritySchemes := Demo.security_schemes;
  GetContactInfo := Demo.contact_info;
  GetAllServerURLs := Demo.server_urls;
  NewRolodex := fun _ => [];
  SetRootNode := fun r _ => r;
  IndexTheRolodex := fun r n => (None, r, n);
  Resolve := resolve
|}.

Definition world : World :=
  mkWorld (<["cyclic.yaml" := list_byte_of_string doc_cyclic]> Demo.disk) ∅ [].

End Cyclic.

(** More sample data: a document whose server URL spells the scheme in
    capitals, and a rule whose severity is a number. *)
Definition tree_shouting : value :=
  VMap [("openapi", VString "3.0.0");
        ("servers", VSlice [VMap [("url", VString "HTTPS://example.com")]])].


(** * Theorems *)

Section Proofs.
Context `{Collaborators}.

(** ** The monad *)

Lemma bind_ret {S A B} (c : M S A) (k : A -> M S B) s a s' :
  c s = (Ret a, s') -> bind c k s = k a s'.
Proof. intros Hc. unfold bind. now rewrite Hc. Qed.

Lemma bind_panic {S A B} (c : M S A) (k : A -> M S B) s msg s' :
  c s = (Panic msg, s') -> bind c k s = (Panic msg, s').
Proof. intros Hc. unfold bind. now rewrite Hc. Qed.

Lemma bind_exit {S A B} (c : M S A) (k : A -> M S B) s code s' :
  c s = (Exit code, s') -> bind c k s = (Exit code, s').
Proof. intros Hc. unfold bind. now rewrite Hc. Qed.

Lemma bind_assoc {S A B C} (c : M S A) (k : A -> M S B) (k' : B -> M S C) s :
  bind (bind c k) k' s = bind c (fun a => bind (k a) k') s.
Proof. unfold bind. destruct (c s) as [[a|msg|code] s']; reflexivity. Qed.

Lemma for_range_app {S A} (xs ys : list A) (body : A -> M S unit) s :
  for_range (xs ++ ys) body s = (for_range xs body ;;; for_range ys body) s.
Proof.
  revert s. induction xs as [|x xs IH]; intros s; simpl.
  - reflexivity.
  - rewrite bind_assoc. unfold bind in *.
    destruct (body x s) as [[[]|msg|code] s']; try reflexivity.
    apply IH.
Qed.

Lemma for_range_print (errs : list error) (w : World) :
  for_range errs
    (fun err => fmt_Println [AString "❌ Erro de validação:"; AError err]) w
  = (Ret tt, mkWorld (files w) (readonly w) (trace w ++ print_findings errs)).
Proof.
  revert w. induction errs as [|e errs IH]; intros w; simpl.
  - unfold ret. rewrite app_nil_r. now destruct w.
  - unfold bind, fmt_Println. rewrite IH. unfold log. simpl.
    now rewrite <- app_assoc.
Qed.

(** ** The rule loop *)

Lemma for_range_urls (e : error) (urls : list string) (errs : list error) :
  for_range urls
    (fun url =>
       if negb (bytes_HasPrefix (list_byte_of_string url)
                                (list_byte_of_string "https://"))
       then append_error e else ret tt) errs
  = (Ret tt,
     errs ++ map (fun _ => e) (List.filter (fun url => negb (is_https url)) urls)).
Proof.
  revert errs. induction urls as [|url urls IH]; intros errs; simpl.
  - unfold ret. now rewrite app_nil_r.
  - unfold bind, is_https.
    destruct (bytes_HasPrefix (list_byte_of_string url) _); simpl.
    + unfold ret at 1. apply IH.
    + unfold append_error at 1. rewrite IH. now rewrite <- app_assoc.
Qed.

Lemma applyRule_well_formed idx name rule errs :
  well_formed_rule rule = true ->
  applyRule idx (name, rule) errs = (Ret tt, errs ++ findings_of idx rule).
Proof.
  intros Hwf. destruct rule as [| | | | |ruleData| |]; try discriminate.
  unfold well_formed_rule in Hwf.
  unfold applyRule, findings_of, selector_of, severity_of, rule_data_of.
  destruct (map_index ruleData "given") as [| | |given| | | |] eqn:Hg;
    try discriminate.
  destruct (map_index ruleData "severity") as [| | |severity| | | |] eqn:Hs;
    try discriminate.
  simpl. unfold bind at 1. simpl. rewrite Hg. unfold bind at 1. simpl.
  rewrite Hs. unfold bind at 1. simpl.
  destruct (String.eqb given "$.components.securitySchemes") eqn:E1.
  - apply String.eqb_eq in E1. subst given. simpl.
    unfold bind.
    destruct (GetSecuritySchemes idx); simpl; unfold ret;
      now rewrite ?app_nil_r.
  - destruct (String.eqb given "$.info.contact") eqn:E2.
    + apply String.eqb_eq in E2. subst given. simpl. unfold bind.
      destruct (GetContactInfo idx); simpl; unfold ret;
        now rewrite ?app_nil_r.
    + destruct (String.eqb given "$.servers[*].url") eqn:E3.
      * unfold bind. simpl. apply for_range_urls.
      * unfold bind, ret. simpl. now rewrite app_nil_r.
Qed.

Lemma applyRules_well_formed idx rulesMap errs :
  all_well_formed rulesMap = true ->
  applyRules idx rulesMap errs = (Ret tt, errs ++ rule_findings idx rulesMap).
Proof.
  unfold applyRules, rule_findings, all_well_formed.
  revert errs. induction rulesMap as [|[name rule] rulesMap IH]; intros errs Hwf.
  - simpl. unfold ret. now rewrite app_nil_r.
  - simpl in Hwf. apply andb_prop in Hwf as [Hr Hrest]. simpl.
    rewrite (bind_ret _ _ _ _ _ (applyRule_well_formed idx name rule errs Hr)).
    rewrite IH by assumption. now rewrite <- app_assoc.
Qed.

Lemma applyRule_malformed idx name rule errs :
  well_formed_rule rule = false ->
  applyRule idx (name, rule) errs = (Panic (rule_panic rule), errs).
Proof.
  intros Hl. unfold applyRule.
  destruct rule as [| | | | |ruleData| |]; try reflexivity.
  unfold well_formed_rule in Hl. simpl. unfold bind at 1. simpl.
  destruct (map_index ruleData "given") as [| | |given| | | |] eqn:Hg;
    try reflexivity.
  unfold bind at 1. simpl.
  destruct (map_index ruleData "severity") as [| | |severity| | | |] eqn:Hs;
    try discriminate; reflexivity.
Qed.

Lemma lacks_field_malformed rule :
  lacks_required_field rule = true -> well_formed_rule rule = false.
Proof.
  destruct rule as [| | | | |ruleData| |]; try discriminate.
  unfold lacks_required_field, well_formed_rule.
  destruct (map_index ruleData "given"), (map_index ruleData "severity");
    auto; discriminate.
Qed.

Lemma applyRules_panic idx pre name rule post errs :
  all_well_formed pre = true ->
  well_formed_rule rule = false ->
  applyRules idx (pre ++ (name, rule) :: post) errs
  = (Panic (rule_panic rule), errs ++ rule_findings idx pre).
Proof.
  intros Hpre Hl. unfold applyRules. rewrite for_range_app.
  pose proof (applyRules_well_formed idx pre errs Hpre) as Hrun.
  unfold applyRules in Hrun. rewrite (bind_ret _ _ _ _ _ Hrun). simpl.
  now rewrite (bind_panic _ _ _ _ _ (applyRule_malformed idx name rule _ Hl)).
Qed.

(** ** Validation *)

Lemma validate_loaded filePath rulesFile w root rules :
  loads filePath rulesFile w root rules ->
  validateOpenAPIWithRules filePath rulesFile w
  = match aggregate (NewSpecIndex root CreateClosedAPIIndexConfig) rules with
    | (Ret _, findings) => verdict filePath findings (after_reads filePath rulesFile w)
    | (Panic msg, _) => (Panic msg, after_reads filePath rulesFile w)
    | (Exit code, _) => (Exit code, after_reads filePath rulesFile w)
    end.
Proof.
  intros (raw & data & ruleBytes & Hraw & Hconv & Hroot & Hrules & Hdec).
  unfold validateOpenAPIWithRules, readFile, loadRules, aggregate, after_reads.
  unfold bind at 1. unfold bind at 1. unfold ioutil_ReadFile at 1.
  rewrite Hraw, Hconv. unfold ret at 1. rewrite Hroot.
  unfold bind at 1. unfold bind at 1. unfold ioutil_ReadFile at 1.
  simpl files. rewrite Hrules, Hdec. unfold ret at 1.
  set (idx := NewSpecIndex root CreateClosedAPIIndexConfig).
  set (w2 := log (EvReadFile rulesFile) (log (EvReadFile filePath) w)).
  unfold bind at 1.
  assert (Hverdict : forall fs,
    (if (0 <? List.length fs)%nat
     then (for_range fs
             (fun err => fmt_Println [AString "❌ Erro de validação:"; AError err]) ;;;
           ret (Some (Errorf "falha na validação do OpenAPI" [])))
     else (fmt_Println [AString "✅ OpenAPI válido com regras aplicadas:";
                        AString filePath] ;;; ret None)) w2
    = verdict filePath fs w2).
  { intros [|e fs]; [reflexivity|].
    change (0 <? List.length (e :: fs))%nat with true. cbv iota.
    unfold bind. rewrite for_range_print. reflexivity. }
  destruct (map_index rules "rules") as [| | | | |rulesMap| |];
    try (unfold ret at 1; apply Hverdict).
  unfold with_local.
  destruct (applyRules idx rulesMap (GetValidationErrors idx))
    as [[[]|msg|code] fs]; try reflexivity.
  apply Hverdict.
Qed.

(** ** Severity plays no part *)

Lemma map_index_change_field f ruleData k :
  map_index (map (change_field f) ruleData) k
  = if String.eqb k "severity"
    then match map_index ruleData k with VString s => VString (f s) | v => v end
    else map_index ruleData k.
Proof.
  induction ruleData as [|[k' v] ruleData IH]; simpl.
  - now destruct (String.eqb k "severity").
  - destruct (String.eqb k' k) eqn:Ek.
    + apply String.eqb_eq in Ek. now subst k'.
    + exact IH.
Qed.

Lemma well_formed_with_severity f rule :
  well_formed_rule (with_severity f rule) = well_formed_rule rule.
Proof.
  destruct rule as [| | | | |ruleData| |]; try reflexivity.
  simpl. rewrite !map_index_change_field. simpl.
  destruct (map_index ruleData "given"); try reflexivity.
  now destruct (map_index ruleData "severity").
Qed.

Lemma rule_panic_with_severity f rule :
  rule_panic (with_severity f rule) = rule_panic rule.
Proof.
  destruct rule as [| | | | |ruleData| |]; try reflexivity.
  simpl. rewrite !map_index_change_field. simpl.
  destruct (map_index ruleData "given"); try reflexivity.
  now destruct (map_index ruleData "severity").
Qed.

Lemma findings_with_severity f idx rule :
  List.length (findings_of idx (with_severity f rule))
  = List.length (findings_of idx rule).
Proof.
  destruct rule as [| | | | |ruleData| |]; try reflexivity.
  unfold findings_of, selector_of. simpl with_severity. cbv iota.
  rewrite map_index_change_field. simpl String.eqb. cbv iota.
  destruct (String.eqb _ "$.components.securitySchemes").
  { now destruct (GetSecuritySchemes idx). }
  destruct (String.eqb _ "$.info.contact").
  { now destruct (GetContactInfo idx). }
  destruct (String.eqb _ "$.servers[*].url"); [|reflexivity].
  now rewrite !length_map.
Qed.

Lemma applyRules_map_severity f idx rulesMap errs errs' :
  List.length errs' = List.length errs ->
  fst (applyRules idx (map_severity f rulesMap) errs')
  = fst (applyRules idx rulesMap errs)
  /\ List.length (snd (applyRules idx (map_severity f rulesMap) errs'))
     = List.length (snd (applyRules idx rulesMap errs)).
Proof.
  unfold applyRules.
  revert errs errs'. induction rulesMap as [|[name rule] rulesMap IH];
    intros errs errs' Hlen.
  - simpl. auto.
  - simpl. destruct (well_formed_rule rule) eqn:Hwf.
    + rewrite (bind_ret _ _ _ _ _ (applyRule_well_formed idx name rule errs Hwf)).
      assert (Hwf' : well_formed_rule (with_severity f rule) = true)
        by now rewrite well_formed_with_severity.
      rewrite (bind_ret _ _ _ _ _
                 (applyRule_well_formed idx name _ errs' Hwf')).
      apply IH. rewrite !length_app, findings_with_severity. lia.
    + rewrite (bind_panic _ _ _ _ _ (applyRule_malformed idx name rule errs Hwf)).
      assert (Hwf' : well_formed_rule (with_severity f rule) = false)
        by now rewrite well_formed_with_severity.
      rewrite (bind_panic _ _ _ _ _
                 (applyRule_malformed idx name _ errs' Hwf')).
      simpl. now rewrite rule_panic_with_severity.
Qed.

Lemma verdict_fails filePath findings w :
  (exists err, fst (verdict filePath findings w) = Ret (Some err))
  <-> findings <> [].
Proof.
  destruct findings as [|e findings]; simpl; split.
  - intros [err Herr]. discriminate.
  - congruence.
  - discriminate.
  - eauto.
Qed.

Lemma verdict_same_length filePath fs fs' w w' :
  List.length fs' = List.length fs ->
  fst (verdict filePath fs' w') = fst (verdict filePath fs w).
Proof. destruct fs, fs'; simpl; intros; try discriminate; reflexivity. Qed.

(** C2, as amended: once the document and the rule file have loaded and
    the loop over the rules has returned without a panic, validation
    returns an error exactly when the aggregated finding sequence (the
    indexer's findings followed by the rule findings) is not empty; and
    rewriting the declared severities of the rule file in any way leaves
    the result of the validation as it was. *)
Theorem validation_fails_iff_findings filePath rulesFile w root rules :
  loads filePath rulesFile w root rules ->
  (forall findings,
      aggregate (NewSpecIndex root CreateClosedAPIIndexConfig) rules
      = (Ret tt, findings) ->
      (exists err, fst (validateOpenAPIWithRules filePath rulesFile w)
                   = Ret (Some err))
      <-> findings <> [])
  /\ (forall rulesFile' w' rules' rulesMap f,
        loads filePath rulesFile' w' root rules' ->
        map_index rules "rules" = VMap rulesMap ->
        map_index rules' "rules" = VMap (map_severity f rulesMap) ->
        fst (validateOpenAPIWithRules filePath rulesFile' w')
        = fst (validateOpenAPIWithRules filePath rulesFile w)).
Proof.
  intros Hloads. split.
  - intros findings Hagg.
    rewrite (validate_loaded _ _ _ _ _ Hloads), Hagg.
    apply verdict_fails.
  - intros rulesFile' w' rules' rulesMap f Hloads' Hrules Hrules'.
    rewrite (validate_loaded _ _ _ _ _ Hloads).
    rewrite (validate_loaded _ _ _ _ _ Hloads').
    unfold aggregate. rewrite Hrules, Hrules'.
    set (idx := NewSpecIndex root CreateClosedAPIIndexConfig).
    destruct (applyRules_map_severity f idx rulesMap
                (GetValidationErrors idx) (GetValidationErrors idx) eq_refl)
      as [Hfst Hlen].
    destruct (applyRules idx rulesMap (GetValidationErrors idx))
      as [[[]|msg|code] fs];
    destruct (applyRules idx (map_severity f rulesMap) (GetValidationErrors idx))
      as [[[]|msg'|code'] fs']; simpl in Hfst, Hlen; try discriminate.
    + now apply verdict_same_length.
    + simpl. congruence.
    + simpl. congruence.
Qed.

(** ** The findings and their order *)

Lemma aggregate_well_formed idx rules rulesMap :
  map_index rules "rules" = VMap rulesMap ->
  all_well_formed rulesMap = true ->
  aggregate idx rules
  = (Ret tt, GetValidationErrors idx ++ rule_findings idx rulesMap).
Proof.
  intros Hrules Hwf. unfold aggregate. rewrite Hrules.
  now apply applyRules_well_formed.
Qed.

(** C5, as amended: the aggregated sequence is the indexer's findings
    followed by the findings of each rule in the order in which the range
    over the rules map visits the rules; the findings of the server rule,
    one per URL that is not https in server-list order, stand at the place
    of that rule, not after the findings of all other rules.  The lines
    printed follow the same order. *)
Theorem findings_in_rule_order filePath rulesFile w root rules rulesMap :
  loads filePath rulesFile w root rules ->
  map_index rules "rules" = VMap rulesMap ->
  all_well_formed rulesMap = true ->
  let idx := NewSpecIndex root CreateClosedAPIIndexConfig in
  aggregate idx rules
  = (Ret tt,
     GetValidationErrors idx
     ++ concat (map (fun entry => findings_of idx (snd entry)) rulesMap))
  /\ validateOpenAPIWithRules filePath rulesFile w
     = verdict filePath
         (GetValidationErrors idx
          ++ concat (map (fun entry => findings_of idx (snd entry)) rulesMap))
         (after_reads filePath rulesFile w).
Proof.
  intros Hloads Hrules Hwf idx.
  pose proof (aggregate_well_formed idx rules rulesMap Hrules Hwf) as Hagg.
  split; [exact Hagg|].
  rewrite (validate_loaded _ _ _ _ _ Hloads). fold idx. now rewrite Hagg.
Qed.

Lemma findings_of_count idx rule :
  List.length (findings_of idx rule) = finding_count idx (selector_of rule).
Proof.
  unfold findings_of, finding_count.
  destruct (String.eqb _ "$.components.securitySchemes").
  { now destruct (GetSecuritySchemes idx). }
  destruct (String.eqb _ "$.info.contact").
  { now destruct (GetContactInfo idx). }
  destruct (String.eqb _ "$.servers[*].url"); [|reflexivity].
  now rewrite length_map.
Qed.

Lemma rule_findings_count idx rulesMap :
  List.length (rule_findings idx rulesMap)
  = sum_list_with (finding_count idx) (selectors rulesMap).
Proof.
  unfold rule_findings, selectors.
  induction rulesMap as [|[name rule] rulesMap IH]; simpl.
  - reflexivity.
  - now rewrite length_app, findings_of_count, IH.
Qed.

(** C6, as amended: a well-formed rule adds to the findings exactly one
    finding if its selector is [$.components.securitySchemes] and the
    index reports no security schemes, exactly one if its selector is
    [$.info.contact] and the index reports no contact, and, if its
    selector is [$.servers[*].url], exactly one per server URL that does
    not begin with the eight bytes [https://], compared as they are; in
    every other case of these selectors it adds none.  Hence a rule set
    made of the three built-in rules, in any order, yields exactly 3
    findings on a document with no security schemes, no contact and one
    server URL that does not begin with [https://]. *)
Theorem builtin_rules_findings idx name rule errs :
  well_formed_rule rule = true ->
  (exists findings,
      applyRule idx (name, rule) errs = (Ret tt, errs ++ findings)
      /\ (selector_of rule = "$.components.securitySchemes" ->
          List.length findings
          = match GetSecuritySchemes idx with None => 1 | Some _ => 0 end)
      /\ (selector_of rule = "$.info.contact" ->
          List.length findings
          = match GetContactInfo idx with None => 1 | Some _ => 0 end)
      /\ (selector_of rule = "$.servers[*].url" ->
          List.length findings
          = List.length (List.filter (fun url => negb (is_https url))
                                     (GetAllServerURLs idx))))
  /\ (forall rulesMap,
        all_well_formed rulesMap = true ->
        selectors rulesMap ≡ₚ builtin_selectors ->
        GetSecuritySchemes idx = None ->
        GetContactInfo idx = None ->
        List.length (List.filter (fun url => negb (is_https url))
                                 (GetAllServerURLs idx)) = 1 ->
        exists findings,
          applyRules idx rulesMap [] = (Ret tt, findings)
          /\ List.length findings = 3).
Proof.
  intros Hwf. split.
  - exists (findings_of idx rule). split; [now apply applyRule_well_formed|].
    rewrite findings_of_count. unfold finding_count.
    repeat split; intros ->; reflexivity.
  - intros rulesMap Hall Hsel Hsec Hcontact Hurls.
    exists (rule_findings idx rulesMap). split.
    + now rewrite (applyRules_well_formed idx rulesMap [] Hall).
    + rewrite rule_findings_count, Hsel. unfold builtin_selectors.
      cbn [sum_list_with]. unfold finding_count. simpl String.eqb. cbv iota.
      rewrite Hsec, Hcontact, Hurls. reflexivity.
Qed.



(** ** Rule files that are incomplete or have no rules *)

Lemma loadRules_loaded ruleFile w ruleBytes rules :
  files w !! ruleFile = Some ruleBytes ->
  yaml_Unmarshal_map ruleBytes = inr rules ->
  loadRules ruleFile w = (Ret (inr rules), log (EvReadFile ruleFile) w).
Proof.
  intros Hfile Hdec. unfold loadRules, bind, ioutil_ReadFile.
  now rewrite Hfile, Hdec.
Qed.

(** C4, as amended: a rule file in which a rule lacks [given] or
    [severity] still loads; the loop over the rules panics when it reaches
    the first such rule, after the rules visited before it have been
    evaluated and have added their findings; the panic ends the validation
    before anything is printed and no error value is returned. *)
Theorem incomplete_rule_panics filePath rulesFile w root rules
    pre name rule post :
  loads filePath rulesFile w root rules ->
  map_index rules "rules" = VMap (pre ++ (name, rule) :: post) ->
  all_well_formed pre = true ->
  lacks_required_field rule = true ->
  let idx := NewSpecIndex root CreateClosedAPIIndexConfig in
  fst (loadRules rulesFile w) = Ret (inr rules)
  /\ aggregate idx rules
     = (Panic (rule_panic rule),
        GetValidationErrors idx ++ rule_findings idx pre)
  /\ validateOpenAPIWithRules filePath rulesFile w
     = (Panic (rule_panic rule), after_reads filePath rulesFile w).
Proof.
  intros Hloads Hrules Hpre Hlacks idx.
  assert (Hagg : aggregate idx rules
                 = (Panic (rule_panic rule),
                    GetValidationErrors idx ++ rule_findings idx pre)).
  { unfold aggregate. rewrite Hrules.
    apply applyRules_panic; [assumption|now apply lacks_field_malformed]. }
  split; [|split].
  - destruct Hloads as (raw & data & ruleBytes & _ & _ & _ & Hfile & Hdec).
    now rewrite (loadRules_loaded _ _ _ _ Hfile Hdec).
  - exact Hagg.
  - rewrite (validate_loaded _ _ _ _ _ Hloads). fold idx. now rewrite Hagg.
Qed.

(** C10, as amended: when the rule file decodes into the rules map (its
    top level is a mapping, or the document is empty) and the [rules]
    entry of that map is absent or is not a mapping with string keys,
    [loadRules] succeeds and no rule is applied: the aggregated findings
    are the indexer's alone, they alone decide the result, and nothing is
    reported about the rules section. *)
Theorem no_rules_section_no_rules filePath rulesFile w root rules :
  loads filePath rulesFile w root rules ->
  (forall rulesMap, map_index rules "rules" <> VMap rulesMap) ->
  let idx := NewSpecIndex root CreateClosedAPIIndexConfig in
  fst (loadRules rulesFile w) = Ret (inr rules)
  /\ aggregate idx rules = (Ret tt, GetValidationErrors idx)
  /\ validateOpenAPIWithRules filePath rulesFile w
     = verdict filePath (GetValidationErrors idx)
         (after_reads filePath rulesFile w).
Proof.
  intros Hloads Hnone idx.
  assert (Hagg : aggregate idx rules = (Ret tt, GetValidationErrors idx)).
  { unfold aggregate.
    destruct (map_index rules "rules") as [| | | | |rulesMap| |];
      try reflexivity.
    now destruct (Hnone rulesMap). }
  split; [|split].
  - destruct Hloads as (raw & data & ruleBytes & _ & _ & _ & Hfile & Hdec).
    now rewrite (loadRules_loaded _ _ _ _ Hfile Hdec).
  - exact Hagg.
  - rewrite (validate_loaded _ _ _ _ _ Hloads). fold idx. now rewrite Hagg.
Qed.

(** ** Encoding normalization *)

(** C8: a byte sequence that does not begin with a byte-order mark comes
    out of [convertToUTF8] unchanged, so that normalizing it twice gives
    what normalizing it once gives. *)
Theorem convertToUTF8_without_BOM data :
  has_BOM data = false ->
  convertToUTF8 data = inr data
  /\ (forall once, convertToUTF8 data = inr once ->
                   convertToUTF8 once = convertToUTF8 data).
Proof.
  intros Hbom. unfold has_BOM in Hbom.
  apply orb_false_elim in Hbom as [Hbom H8].
  apply orb_false_elim in Hbom as [Hle Hbe].
  assert (Hid : convertToUTF8 data = inr data).
  { unfold convertToUTF8, BOMOverride_Nop. now rewrite Hle, Hbe, H8. }
  split; [exact Hid|].
  intros once Honce. rewrite Hid in Honce. injection Honce as <-.
  reflexivity.
Qed.

(** ** Resolution *)

Lemma resolveOpenAPI_run inputFile outputFile w :
  resolveOpenAPI inputFile outputFile w
  = let w1 := log (EvReadFile inputFile) w in
    match files w !! inputFile with
    | None =>
        (Ret (Some (Errorf "erro ao ler o arquivo %s: %v"
                      [AString inputFile;
                       AError (LibError ("open " +:+ inputFile
                                         +:+ ": no such file or directory"))])),
         w1)
    | Some raw =>
        match resolved_bytes raw with
        | inl err => (Ret (Some err), w1)
        | inr resolvedYAML =>
            if decide (outputFile ∈ readonly w)
            then (Ret (Some (Errorf "erro ao salvar arquivo resolvido: %v"
                               [AError (LibError ("open " +:+ outputFile
                                                  +:+ ": permission denied"))])),
                  w1)
            else (Ret None,
                  log (EvPrintln [AString "✅ Arquivo resolvido salvo em:";
                                  AString outputFile])
                      (mkWorld (<[outputFile := resolvedYAML]> (files w))
                               (readonly w)
                               (trace w1 ++ [EvWriteFile outputFile resolvedYAML])))
        end
    end.
Proof.
  unfold resolveOpenAPI, readFile, resolved_bytes.
  unfold bind at 1. unfold bind at 1. unfold ioutil_ReadFile.
  destruct (files w !! inputFile) as [raw|]; [|reflexivity].
  destruct (convertToUTF8 raw) as [err|data]; [reflexivity|].
  unfold ret at 1.
  destruct (yaml_Unmarshal_Node data) as [err|rootNode]; [reflexivity|].
  destruct (IndexTheRolodex _ rootNode) as [[[err|] rolodex] rootNode'];
    [reflexivity|].
  destruct (Resolve rolodex rootNode') as [rolodex' resolved]. simpl snd.
  destruct (yaml_Marshal resolved) as [err|resolvedYAML]; [reflexivity|].
  unfold bind, ioutil_WriteFile. simpl readonly.
  destruct (decide (outputFile ∈ readonly w)); reflexivity.
Qed.

(** ** The driver *)

Lemma exit_on_error_fails action report w err w' :
  action w = (Ret (Some err), w') ->
  exit_on_error action report w = (Exit 1, log (EvPrintln (report err)) w').
Proof. intros Hact. unfold exit_on_error, bind. now rewrite Hact. Qed.

Lemma exit_on_error_succeeds action report w w' :
  action w = (Ret None, w') ->
  exit_on_error action report w = (Ret tt, w').
Proof. intros Hact. unfold exit_on_error, bind. now rewrite Hact. Qed.

Lemma exit_on_error_panics action report w msg w' :
  action w = (Panic msg, w') ->
  exit_on_error action report w = (Panic msg, w').
Proof. intros Hact. unfold exit_on_error, bind. now rewrite Hact. Qed.

Lemma run_stages_succeeding stages w w' :
  run_succeeding stages w = Some w' ->
  run_stages stages w = (Ret tt, w').
Proof.
  revert w. induction stages as [|[action report] stages IH]; intros w; simpl.
  - now intros [= ->].
  - destruct (action w) as [[[err|]|msg|code] w1] eqn:Hact; try discriminate.
    intros Hrest.
    rewrite (bind_ret _ _ _ _ _ (exit_on_error_succeeds _ report _ _ Hact)).
    now apply IH.
Qed.

Lemma run_stages_app pre post w w' :
  run_succeeding pre w = Some w' ->
  run_stages (pre ++ post) w = run_stages post w'.
Proof.
  revert w. induction pre as [|[action report] pre IH]; intros w; simpl.
  - now intros [= ->].
  - destruct (action w) as [[[err|]|msg|code] w1] eqn:Hact; try discriminate.
    intros Hrest.
    rewrite (bind_ret _ _ _ _ _ (exit_on_error_succeeds _ report _ _ Hact)).
    now apply IH.
Qed.

Lemma main_run_stages prog oldFile newFile rulesFile rest w :
  main (prog :: oldFile :: newFile :: rulesFile :: rest) w
  = (run_stages (pipeline oldFile newFile rulesFile) ;;;
     fmt_Println [AString "🚀 OpenAPI validado com regras aplicadas e arquivos resolvidos gerados com sucesso!"]) w.
Proof.
  unfold main, pipeline. simpl. unfold bind.
  repeat match goal with
         | |- context [exit_on_error ?a ?r ?w0] =>
             destruct (exit_on_error a r w0) as [[[]|?|?] ?]
         end; reflexivity.
Qed.

Lemma main_stage_fails prog oldFile newFile rulesFile rest w pre s post w' :
  pipeline oldFile newFile rulesFile = pre ++ s :: post ->
  run_succeeding pre w = Some w' ->
  (forall err w'',
      fst s w' = (Ret (Some err), w'') ->
      main (prog :: oldFile :: newFile :: rulesFile :: rest) w
      = (Exit 1, log (EvPrintln (snd s err)) w''))
  /\ (forall msg w'',
        fst s w' = (Panic msg, w'') ->
        main (prog :: oldFile :: newFile :: rulesFile :: rest) w
        = (Panic msg, w'')).
Proof.
  intros Hpipe Hpre. destruct s as [action report]. simpl.
  split; intros x w'' Hact; rewrite main_run_stages, Hpipe.
  - apply bind_exit. rewrite (run_stages_app _ _ _ _ Hpre). simpl.
    apply bind_exit. now apply exit_on_error_fails.
  - apply bind_panic. rewrite (run_stages_app _ _ _ _ Hpre). simpl.
    apply bind_panic. now apply exit_on_error_panics.
Qed.

Lemma main_succeeds prog oldFile newFile rulesFile rest w w' :
  run_succeeding (pipeline oldFile newFile rulesFile) w = Some w' ->
  main (prog :: oldFile :: newFile :: rulesFile :: rest) w
  = (Ret tt,
     log (EvPrintln [AString "🚀 OpenAPI validado com regras aplicadas e arquivos resolvidos gerados com sucesso!"]) w').
Proof.
  intros Hall. rewrite main_run_stages.
  now rewrite (bind_ret _ _ _ _ _ (run_stages_succeeding _ _ _ Hall)).
Qed.

(** Validation never calls [os.Exit] and never writes. *)

Lemma applyRules_no_exit idx rulesMap errs code errs' :
  applyRules idx rulesMap errs <> (Exit code, errs').
Proof.
  unfold applyRules. revert errs.
  induction rulesMap as [|[name rule] rulesMap IH]; intros errs; simpl.
  - discriminate.
  - destruct (well_formed_rule rule) eqn:Hwf.
    + rewrite (bind_ret _ _ _ _ _ (applyRule_well_formed idx name rule errs Hwf)).
      apply IH.
    + rewrite (bind_panic _ _ _ _ _ (applyRule_malformed idx name rule errs Hwf)).
      discriminate.
Qed.

Lemma quiet_run_refl paths w : quiet_run paths w w.
Proof.
  repeat split. exists []. now rewrite app_nil_r.
Qed.

Lemma quiet_run_step paths w w' e :
  quiet_run paths w w' ->
  quiet_event paths e = true ->
  quiet_run paths w (log e w').
Proof.
  intros (Hf & Hr & events & Ht & Hq) He. repeat split; try assumption.
  exists (events ++ [e]). simpl. rewrite Ht, <- app_assoc. split; [reflexivity|].
  rewrite forallb_app, Hq. simpl. now rewrite He.
Qed.

Lemma quiet_run_prints paths w w' errs :
  quiet_run paths w w' ->
  quiet_run paths w
    (mkWorld (files w') (readonly w') (trace w' ++ print_findings errs)).
Proof.
  intros (Hf & Hr & events & Ht & Hq). repeat split; try assumption.
  exists (events ++ print_findings errs). simpl.
  rewrite Ht, <- app_assoc. split; [reflexivity|].
  rewrite forallb_app, Hq. simpl.
  unfold print_findings. now induction errs.
Qed.

Lemma quiet_read_first p q : quiet_event [p; q] (EvReadFile p) = true.
Proof. simpl. now rewrite String.eqb_refl. Qed.

Lemma quiet_read_second p q : quiet_event [p; q] (EvReadFile q) = true.
Proof. simpl. rewrite String.eqb_refl. now rewrite orb_true_r. Qed.

Lemma verdict_quiet paths filePath findings w w' :
  quiet_run paths w w' ->
  quiet_run paths w (snd (verdict filePath findings w')).
Proof.
  intros Hq. destruct findings as [|e findings].
  - simpl. now apply quiet_run_step.
  - exact (quiet_run_prints paths w w' (e :: findings) Hq).
Qed.

Lemma validate_quiet filePath rulesFile w :
  quiet_run [filePath; rulesFile] w
    (snd (validateOpenAPIWithRules filePath rulesFile w))
  /\ forall code, fst (validateOpenAPIWithRules filePath rulesFile w) <> Exit code.
Proof.
  pose proof (quiet_run_step _ _ _ _ (quiet_run_refl [filePath; rulesFile] w)
                (quiet_read_first filePath rulesFile)) as Hq1.
  pose proof (quiet_run_step _ _ _ _ Hq1 (quiet_read_second filePath rulesFile))
    as Hq2.
  destruct (files w !! filePath) as [raw|] eqn:Hraw;
    [destruct (convertToUTF8 raw) as [err|data] eqn:Hconv;
     [|destruct (yaml_Unmarshal_Node data) as [err|root] eqn:Hroot;
       [|destruct (files w !! rulesFile) as [ruleBytes|] eqn:Hrules;
         [destruct (yaml_Unmarshal_map ruleBytes) as [err|rules] eqn:Hdec|]]]|].
  4: { rewrite (validate_loaded filePath rulesFile w root rules)
         by (exists raw, data, ruleBytes; auto).
       unfold aggregate.
       set (idx := NewSpecIndex root CreateClosedAPIIndexConfig).
       assert (Hv : forall fs,
                  quiet_run [filePath; rulesFile] w
                    (snd (verdict filePath fs (after_reads filePath rulesFile w)))
                  /\ forall code,
                      fst (verdict filePath fs (after_reads filePath rulesFile w))
                      <> Exit code).
       { intros fs. split; [now apply verdict_quiet|].
         intros code Hne. destruct fs; discriminate Hne. }
       destruct (map_index rules "rules") as [| | | | |rulesMap| |];
         try apply Hv.
       pose proof (applyRules_no_exit idx rulesMap (GetValidationErrors idx))
         as Hne.
       destruct (applyRules idx rulesMap (GetValidationErrors idx))
         as [[[]|msg|code] fs].
       - apply Hv.
       - split; [exact Hq2|intros code' Hexit; discriminate Hexit].
       - now destruct (Hne code fs). }
  all: destruct (validateOpenAPIWithRules filePath rulesFile w)
         as [o w'] eqn:Hrun.
  all: revert Hrun.
  all: unfold validateOpenAPIWithRules, readFile, loadRules, bind,
         ioutil_ReadFile.
  all: rewrite Hraw; try rewrite Hconv; unfold ret; try rewrite Hroot.
  all: simpl files; try rewrite Hrules; try rewrite Hdec.
  all: intros [= <- <-]; simpl.
  all: split; [assumption|intros code Hne; discriminate Hne].
Qed.

Lemma resolve_never_exits inputFile outputFile report :
  never_exits (resolveOpenAPI inputFile outputFile, report).
Proof.
  intros w code. simpl. rewrite resolveOpenAPI_run. cbv zeta.
  destruct (files w !! inputFile) as [raw|]; [|discriminate].
  destruct (resolved_bytes raw); [discriminate|].
  destruct (decide (outputFile ∈ readonly w)); discriminate.
Qed.

Lemma pipeline_never_exits oldFile newFile rulesFile :
  Forall never_exits (pipeline oldFile newFile rulesFile).
Proof.
  unfold pipeline. repeat constructor;
    try apply resolve_never_exits;
    intros w code; simpl; apply validate_quiet.
Qed.

Lemma run_succeeding_or_fails stages w :
  Forall never_exits stages ->
  (exists w', run_succeeding stages w = Some w')
  \/ (exists pre s post w' w'',
        stages = pre ++ s :: post
        /\ run_succeeding pre w = Some w'
        /\ ((exists err, fst s w' = (Ret (Some err), w''))
            \/ (exists msg, fst s w' = (Panic msg, w'')))).
Proof.
  intros Hne. revert w.
  induction Hne as [|[action report] stages Hs Hrest IH]; intros w.
  - left. now exists w.
  - simpl. destruct (action w) as [[[err|]|msg|code] w1] eqn:Hact.
    + right. exists [], (action, report), stages, w, w1. simpl.
      rewrite Hact. eauto.
    + destruct (IH w1) as [[w' Hok]|(pre & s & post & w' & w'' & -> & Hpre & Hs')].
      * left. now exists w'.
      * right. exists ((action, report) :: pre), s, post, w', w''.
        simpl. rewrite Hact. auto.
    + right. exists [], (action, report), stages, w, w1. simpl.
      rewrite Hact. eauto.
    + exfalso. apply (Hs w code). simpl. now rewrite Hact.
Qed.

(** C1: the driver is fail fast.  Whatever stage of the pipeline
    (validate old, validate new, resolve old, resolve new) is the first
    not to succeed, the process ends right there: with status 1 after
    printing that stage's line when the stage returned an error, with the
    panic when it panicked; no later stage contributes anything to the
    final world.  Every run is of that kind or else has all four stages
    succeed.  In particular, when validating the old document does not
    succeed, the process ends with a non-zero status having written no
    file and having read nothing but the old document and the rule
    file. *)
Theorem fail_fast prog oldFile newFile rulesFile rest w :
  let Args := prog :: oldFile :: newFile :: rulesFile :: rest in
  (forall pre s post w',
      pipeline oldFile newFile rulesFile = pre ++ s :: post ->
      run_succeeding pre w = Some w' ->
      (forall err w'',
          fst s w' = (Ret (Some err), w'') ->
          main Args w = (Exit 1, log (EvPrintln (snd s err)) w''))
      /\ (forall msg w'',
            fst s w' = (Panic msg, w'') ->
            main Args w = (Panic msg, w'')))
  /\ ((exists w',
         run_succeeding (pipeline oldFile newFile rulesFile) w = Some w'
         /\ fst (main Args w) = Ret tt)
      \/ (exists pre s post w' w'',
            pipeline oldFile newFile rulesFile = pre ++ s :: post
            /\ run_succeeding pre w = Some w'
            /\ ((exists err, fst s w' = (Ret (Some err), w''))
                \/ (exists msg, fst s w' = (Panic msg, w'')))))
  /\ (fst (validateOpenAPIWithRules oldFile rulesFile w) <> Ret None ->
      exit_status (fst (main Args w)) <> 0%Z
      /\ quiet_run [oldFile; rulesFile] w (snd (main Args w))).
Proof.
  intros Args. split; [|split].
  - intros pre s post w' Hpipe Hpre.
    exact (main_stage_fails prog oldFile newFile rulesFile rest w
             pre s post w' Hpipe Hpre).
  - destruct (run_succeeding_or_fails (pipeline oldFile newFile rulesFile) w
                (pipeline_never_exits oldFile newFile rulesFile))
      as [[w' Hok]|Hfails].
    + left. exists w'. split; [exact Hok|].
      unfold Args. now rewrite (main_succeeds _ _ _ _ _ _ _ Hok).
    + right. exact Hfails.
  - intros Hfails.
    destruct (validate_quiet oldFile rulesFile w) as [Hquiet Hnoexit].
    destruct (main_stage_fails prog oldFile newFile rulesFile rest w
                [] _ _ w eq_refl eq_refl) as [Herr Hpanic].
    simpl in Herr, Hpanic.
    destruct (validateOpenAPIWithRules oldFile rulesFile w)
      as [[[err|]|msg|code] w1] eqn:Hrun; simpl in Hfails, Hquiet.
    + unfold Args. rewrite (Herr err w1 eq_refl). simpl.
      split; [discriminate|]. now apply quiet_run_step.
    + now destruct Hfails.
    + unfold Args. rewrite (Hpanic msg w1 eq_refl). simpl.
      split; [discriminate|assumption].
    + now destruct (Hnoexit code).
Qed.


End Proofs.

(** * Further properties of the two programs *)

Section More.
Context `{Collaborators}.

(** ** Validation only reads *)

Lemma reads_of_app (xs ys : list event) :
  reads_of (xs ++ ys) = reads_of xs ++ reads_of ys.
Proof. unfold reads_of. now rewrite flat_map_app. Qed.

Lemma writes_of_app (xs ys : list event) :
  writes_of (xs ++ ys) = writes_of xs ++ writes_of ys.
Proof. unfold writes_of. now rewrite flat_map_app. Qed.

Lemma print_findings_silent errs :
  reads_of (print_findings errs) = [] /\ writes_of (print_findings errs) = [].
Proof. unfold print_findings. induction errs; simpl; auto. Qed.

Lemma verdict_lines_silent filePath findings :
  reads_of (verdict_lines filePath findings) = []
  /\ writes_of (verdict_lines filePath findings) = [].
Proof.
  destruct findings as [|e findings]; [now split|].
  apply (print_findings_silent (e :: findings)).
Qed.

Lemma verdict_world filePath findings w :
  snd (verdict filePath findings w)
  = mkWorld (files w) (readonly w) (trace w ++ verdict_lines filePath findings).
Proof. now destruct findings. Qed.

Lemma verdict_returns filePath findings w :
  exists result, fst (verdict filePath findings w) = Ret result.
Proof. destruct findings; simpl; eauto. Qed.

Lemma validate_run filePath rulesFile w :
  validateOpenAPIWithRules filePath rulesFile w
  = let w1 := log (EvReadFile filePath) w in
    let w2 := after_reads filePath rulesFile w in
    match files w !! filePath with
    | None =>
        (Ret (Some (Errorf "erro ao ler o arquivo %s: %v"
                      [AString filePath;
                       AError (LibError ("open " +:+ filePath
                                         +:+ ": no such file or directory"))])),
         w1)
    | Some raw =>
      match convertToUTF8 raw with
      | inl err => (Ret (Some err), w1)
      | inr data =>
        match yaml_Unmarshal_Node data with
        | inl err =>
            (Ret (Some (Errorf "erro ao fazer unmarshal do YAML: %v" [AError err])),
             w1)
        | inr root =>
          match files w !! rulesFile with
          | None =>
              (Ret (Some (Errorf "erro ao ler regras YAML: %v"
                            [AError (LibError ("open " +:+ rulesFile
                                               +:+ ": no such file or directory"))])),
               w2)
          | Some ruleBytes =>
            match yaml_Unmarshal_map ruleBytes with
            | inl err =>
                (Ret (Some (Errorf "erro ao fazer unmarshal das regras: %v"
                              [AError err])), w2)
            | inr rules =>
              match aggregate (NewSpecIndex root CreateClosedAPIIndexConfig)
                              rules with
              | (Ret _, findings) => verdict filePath findings w2
              | (Panic msg, _) => (Panic msg, w2)
              | (Exit code, _) => (Exit code, w2)
              end
            end
          end
        end
      end
    end.
Proof.
  cbv zeta.
  destruct (files w !! filePath) as [raw|] eqn:Hraw;
    [destruct (convertToUTF8 raw) as [err|data] eqn:Hconv;
     [|destruct (yaml_Unmarshal_Node data) as [err|root] eqn:Hroot;
       [|destruct (files w !! rulesFile) as [ruleBytes|] eqn:Hrules;
         [destruct (yaml_Unmarshal_map ruleBytes) as [err|rules] eqn:Hdec|]]]|].
  4: { apply validate_loaded. now exists raw, data, ruleBytes. }
  all: unfold validateOpenAPIWithRules, readFile, loadRules, bind,
         ioutil_ReadFile, after_reads.
  all: rewrite Hraw; try rewrite Hconv; unfold ret; try rewrite Hroot.
  all: simpl files; try rewrite Hrules; try rewrite Hdec.
  all: reflexivity.
Qed.

(** X1: a validation never writes and never ends the process itself: it
    leaves every file and permission as it was, it reads the document
    first and the rule file after it, never anything else, and the rule
    file is left unread only when an error about the document is
    returned. *)
Theorem validation_only_reads filePath rulesFile w :
  exists events,
    snd (validateOpenAPIWithRules filePath rulesFile w)
    = mkWorld (files w) (readonly w) (trace w ++ events)
    /\ writes_of events = []
    /\ (reads_of events = [filePath; rulesFile]
        \/ (reads_of events = [filePath]
            /\ exists err,
                 fst (validateOpenAPIWithRules filePath rulesFile w)
                 = Ret (Some err)))
    /\ forall code,
         fst (validateOpenAPIWithRules filePath rulesFile w) <> Exit code.
Proof.
  rewrite validate_run. cbv zeta. unfold after_reads, log. simpl.
  assert (Hearly : forall err : error,
    exists events,
      mkWorld (files w) (readonly w) (trace w ++ [EvReadFile filePath])
      = mkWorld (files w) (readonly w) (trace w ++ events)
      /\ writes_of events = []
      /\ (reads_of events = [filePath; rulesFile]
          \/ (reads_of events = [filePath]
              /\ exists err', Ret (A := option error) (Some err) = Ret (Some err')))
      /\ forall code, Ret (A := option error) (Some err) <> Exit code).
  { intros err. exists [EvReadFile filePath].
    repeat split; [right; split; [reflexivity|now exists err]|].
    intros code Hne. discriminate Hne. }
  destruct (files w !! filePath) as [raw|]; [|apply Hearly].
  destruct (convertToUTF8 raw) as [err|data]; [apply Hearly|].
  destruct (yaml_Unmarshal_Node data) as [err|root]; [apply Hearly|].
  assert (Hlate : forall (o : outcome (option error)) (lines : list event),
    reads_of lines = [] -> writes_of lines = [] ->
    (forall code, o <> Exit code) ->
    exists events,
      mkWorld (files w) (readonly w)
        (((trace w ++ [EvReadFile filePath]) ++ [EvReadFile rulesFile]) ++ lines)
      = mkWorld (files w) (readonly w) (trace w ++ events)
      /\ writes_of events = []
      /\ (reads_of events = [filePath; rulesFile]
          \/ (reads_of events = [filePath]
              /\ exists err', o = Ret (Some err')))
      /\ forall code, o <> Exit code).
  { intros o lines Hr Hw Ho.
    exists ([EvReadFile filePath; EvReadFile rulesFile] ++ lines).
    split; [now rewrite <- !app_assoc|].
    rewrite writes_of_app, reads_of_app, Hr, Hw. simpl. auto. }
  assert (Hnone : forall err : error,
    forall code, Ret (A := option error) (Some err) <> Exit code)
    by (intros err code Hne; discriminate Hne).
  destruct (files w !! rulesFile) as [ruleBytes|].
  2: { rewrite <- (app_nil_r (_ ++ [EvReadFile rulesFile])).
       now apply Hlate. }
  destruct (yaml_Unmarshal_map ruleBytes) as [err|rules].
  { rewrite <- (app_nil_r (_ ++ [EvReadFile rulesFile])). now apply Hlate. }
  set (idx := NewSpecIndex root CreateClosedAPIIndexConfig).
  unfold aggregate.
  assert (Hverdict : forall findings,
    exists events,
      snd (verdict filePath findings
             (mkWorld (files w) (readonly w)
                ((trace w ++ [EvReadFile filePath]) ++ [EvReadFile rulesFile])))
      = mkWorld (files w) (readonly w) (trace w ++ events)
      /\ writes_of events = []
      /\ (reads_of events = [filePath; rulesFile]
          \/ (reads_of events = [filePath]
              /\ exists err',
                   fst (verdict filePath findings
                          (mkWorld (files w) (readonly w)
                             ((trace w ++ [EvReadFile filePath])
                              ++ [EvReadFile rulesFile])))
                   = Ret (Some err')))
      /\ forall code,
           fst (verdict filePath findings
                  (mkWorld (files w) (readonly w)
                     ((trace w ++ [EvReadFile filePath])
                      ++ [EvReadFile rulesFile])))
           <> Exit code).
  { intros findings. rewrite verdict_world. simpl.
    destruct (verdict_lines_silent filePath findings) as [Hr Hw].
    apply Hlate; [assumption|assumption|].
    intros code Hne.
    destruct (verdict_returns filePath findings
                (mkWorld (files w) (readonly w)
                   ((trace w ++ [EvReadFile filePath]) ++ [EvReadFile rulesFile])))
      as [result Hres].
    rewrite Hres in Hne. discriminate Hne. }
  destruct (map_index rules "rules") as [| | | | |rulesMap| |];
    try apply Hverdict.
  pose proof (applyRules_no_exit idx rulesMap (GetValidationErrors idx)) as Hne.
  destruct (applyRules idx rulesMap (GetValidationErrors idx))
    as [[[]|msg|code] fs].
  - apply Hverdict.
  - simpl. rewrite <- (app_nil_r (_ ++ [EvReadFile rulesFile])).
    apply Hlate; [reflexivity|reflexivity|].
    intros code Hexit. discriminate Hexit.
  - now destruct (Hne code fs).
Qed.

(** ** The rule loop *)

Lemma applyRule_extends idx entry errs :
  applyRule idx entry errs
  = (fst (applyRule idx entry []), errs ++ snd (applyRule idx entry [])).
Proof.
  destruct entry as [name rule].
  destruct (well_formed_rule rule) eqn:Hwf.
  - rewrite !(applyRule_well_formed idx name rule _ Hwf). reflexivity.
  - rewrite !(applyRule_malformed idx name rule _ Hwf). simpl.
    now rewrite app_nil_r.
Qed.

(** X2: the loop over the rules only ever appends: whatever findings are
    there when it starts remain, in place, at the front, also when the
    loop panics; and what it appends and how it ends do not depend on
    them. *)
Theorem applyRules_extends idx rulesMap errs :
  applyRules idx rulesMap errs
  = (fst (applyRules idx rulesMap []), errs ++ snd (applyRules idx rulesMap [])).
Proof.
  unfold applyRules. revert errs.
  induction rulesMap as [|entry rulesMap IH]; intros errs; simpl.
  - unfold ret. simpl. now rewrite app_nil_r.
  - unfold bind. rewrite (applyRule_extends idx entry errs).
    destruct (applyRule idx entry []) as [[[]|msg|code] added]; simpl;
      try reflexivity.
    rewrite (IH (errs ++ added)), (IH added). simpl.
    now rewrite app_assoc.
Qed.

Lemma applyRules_panic_malformed idx rulesMap errs msg errs' :
  applyRules idx rulesMap errs = (Panic msg, errs') ->
  all_well_formed rulesMap = false.
Proof.
  intros Hrun. destruct (all_well_formed rulesMap) eqn:Hwf; [|reflexivity].
  rewrite (applyRules_well_formed idx rulesMap errs Hwf) in Hrun.
  discriminate Hrun.
Qed.

Lemma validate_panic_cause filePath rulesFile w msg :
  fst (validateOpenAPIWithRules filePath rulesFile w) = Panic msg ->
  (exists ruleBytes rules rulesMap,
      files w !! rulesFile = Some ruleBytes
      /\ yaml_Unmarshal_map ruleBytes = inr rules
      /\ map_index rules "rules" = VMap rulesMap
      /\ all_well_formed rulesMap = false)
  /\ snd (validateOpenAPIWithRules filePath rulesFile w)
     = after_reads filePath rulesFile w.
Proof.
  rewrite validate_run. cbv zeta.
  destruct (files w !! filePath) as [raw|]; [|discriminate].
  destruct (convertToUTF8 raw) as [err|data]; [discriminate|].
  destruct (yaml_Unmarshal_Node data) as [err|root]; [discriminate|].
  destruct (files w !! rulesFile) as [ruleBytes|]; [|discriminate].
  destruct (yaml_Unmarshal_map ruleBytes) as [err|rules] eqn:Hdec;
    [discriminate|].
  set (idx := NewSpecIndex root CreateClosedAPIIndexConfig).
  unfold aggregate.
  assert (Hverdict : forall findings w0,
             fst (verdict filePath findings w0) <> Panic msg).
  { intros findings w0 Hp. destruct findings; discriminate Hp. }
  destruct (map_index rules "rules") as [| | | | |rulesMap| |] eqn:Hrules;
    try (intros Hp; now destruct (Hverdict _ _ Hp)).
  destruct (applyRules idx rulesMap (GetValidationErrors idx))
    as [[[]|msg'|code] fs] eqn:Hrun; simpl.
  - intros Hp. now destruct (Hverdict _ _ Hp).
  - intros _. split; [|reflexivity].
    exists ruleBytes, rules, rulesMap.
    split; [reflexivity|]. split; [exact Hdec|]. split; [exact Hrules|].
    exact (applyRules_panic_malformed idx rulesMap _ _ _ Hrun).
  - discriminate.
Qed.

Lemma first_malformed rulesMap :
  all_well_formed rulesMap = false ->
  exists pre name rule post,
    rulesMap = pre ++ (name, rule) :: post
    /\ all_well_formed pre = true
    /\ well_formed_rule rule = false.
Proof.
  unfold all_well_formed.
  induction rulesMap as [|[name rule] rulesMap IH]; simpl; [discriminate|].
  destruct (well_formed_rule rule) eqn:Hwf; simpl.
  - intros Hrest.
    destruct (IH Hrest) as (pre & name' & rule' & post & -> & Hpre & Hbad).
    exists ((name, rule) :: pre), name', rule', post. simpl.
    now rewrite Hwf, Hpre.
  - intros _. now exists [], name, rule, rulesMap.
Qed.

Lemma malformed_rule_panics filePath rulesFile w root rules rulesMap :
  loads filePath rulesFile w root rules ->
  map_index rules "rules" = VMap rulesMap ->
  all_well_formed rulesMap = false ->
  exists msg,
    validateOpenAPIWithRules filePath rulesFile w
    = (Panic msg, after_reads filePath rulesFile w).
Proof.
  intros Hloads Hrules Hbad.
  destruct (first_malformed rulesMap Hbad)
    as (pre & name & rule & post & -> & Hpre & Hrule).
  exists (rule_panic rule).
  rewrite (validate_loaded _ _ _ _ _ Hloads). unfold aggregate.
  rewrite Hrules.
  now rewrite (applyRules_panic _ pre name rule post _ Hpre Hrule).
Qed.

Lemma well_formed_rules_verdict filePath rulesFile w root rules rulesMap :
  loads filePath rulesFile w root rules ->
  map_index rules "rules" = VMap rulesMap ->
  all_well_formed rulesMap = true ->
  validateOpenAPIWithRules filePath rulesFile w
  = verdict filePath
      (GetValidationErrors (NewSpecIndex root CreateClosedAPIIndexConfig)
       ++ rule_findings (NewSpecIndex root CreateClosedAPIIndexConfig) rulesMap)
      (after_reads filePath rulesFile w).
Proof.
  intros Hloads Hrules Hwf.
  rewrite (validate_loaded _ _ _ _ _ Hloads).
  now rewrite (aggregate_well_formed _ rules rulesMap Hrules Hwf).
Qed.

(** X7: a validation panics exactly when its rule set has a rule that is
    not well formed.  For a document and a rule file that load, with a
    [rules] mapping: the validation ends in a panic if and only if some
    rule is not a mapping or lacks a string [given] or a string
    [severity]; and a panic leaves nothing printed: the world is the one
    right after the two reads. *)
Theorem validation_panics_iff_malformed_rule
    filePath rulesFile w root rules rulesMap :
  loads filePath rulesFile w root rules ->
  map_index rules "rules" = VMap rulesMap ->
  ((exists msg, fst (validateOpenAPIWithRules filePath rulesFile w) = Panic msg)
   <-> all_well_formed rulesMap = false)
  /\ (all_well_formed rulesMap = false ->
      snd (validateOpenAPIWithRules filePath rulesFile w)
      = after_reads filePath rulesFile w).
Proof.
  intros Hloads Hrules.
  split; [split|].
  - intros [msg Hmsg].
    destruct (all_well_formed rulesMap) eqn:Hwf; [|reflexivity].
    rewrite (well_formed_rules_verdict _ _ _ _ _ _ Hloads Hrules Hwf) in Hmsg.
    destruct (GetValidationErrors _ ++ rule_findings _ rulesMap);
      discriminate Hmsg.
  - intros Hbad.
    destruct (malformed_rule_panics _ _ _ _ _ _ Hloads Hrules Hbad) as [msg ->].
    now exists msg.
  - intros Hbad.
    now destruct (malformed_rule_panics _ _ _ _ _ _ Hloads Hrules Hbad)
      as [msg ->].
Qed.

Lemma findings_of_uniform idx rule :
  findings_of idx rule
  = List.repeat (rule_error (severity_of rule) (rule_data_of rule))
                (finding_count idx (selector_of rule)).
Proof.
  unfold findings_of, finding_count.
  destruct (String.eqb _ "$.components.securitySchemes").
  { now destruct (GetSecuritySchemes idx). }
  destruct (String.eqb _ "$.info.contact").
  { now destruct (GetContactInfo idx). }
  destruct (String.eqb _ "$.servers[*].url"); [|reflexivity].
  induction (List.filter _ (GetAllServerURLs idx)) as [|url urls IH]; simpl.
  - reflexivity.
  - now rewrite IH.
Qed.

Lemma filter_length_le {A} (f : A -> bool) (l : list A) :
  List.length (List.filter f l) <= List.length l.
Proof.
  induction l as [|x l IH]; simpl; [lia|].
  destruct (f x); simpl; lia.
Qed.

(** X4: the findings of one rule are copies of a single error, made of
    the rule's severity and of whatever its [description] entry holds
    (nil when there is none: a description is not required); they carry
    neither the name of the rule nor the URL they are about, and there
    are at most as many as there are server URLs, or one. *)
Theorem rule_findings_are_copies idx name name' rule errs :
  well_formed_rule rule = true ->
  exists count,
    applyRule idx (name, rule) errs
    = (Ret tt,
       errs ++ List.repeat
                 (Errorf "[%s] %s"
                    [AString (severity_of rule);
                     AValue (map_index (rule_data_of rule) "description")])
                 count)
    /\ applyRule idx (name', rule) errs = applyRule idx (name, rule) errs
    /\ count <= Nat.max 1 (List.length (GetAllServerURLs idx)).
Proof.
  intros Hwf. exists (finding_count idx (selector_of rule)).
  rewrite !(applyRule_well_formed idx _ rule errs Hwf), findings_of_uniform.
  split; [reflexivity|]. split; [reflexivity|].
  unfold finding_count.
  destruct (String.eqb _ "$.components.securitySchemes").
  { destruct (GetSecuritySchemes idx); lia. }
  destruct (String.eqb _ "$.info.contact").
  { destruct (GetContactInfo idx); lia. }
  destruct (String.eqb _ "$.servers[*].url"); [|lia].
  pose proof (filter_length_le (fun url => negb (is_https url))
                (GetAllServerURLs idx)).
  lia.
Qed.

Lemma findings_of_clean idx rule :
  GetSecuritySchemes idx <> None ->
  GetContactInfo idx <> None ->
  forallb is_https (GetAllServerURLs idx) = true ->
  findings_of idx rule = [].
Proof.
  intros Hsec Hcontact Hurls. unfold findings_of.
  destruct (String.eqb _ "$.components.securitySchemes").
  { now destruct (GetSecuritySchemes idx). }
  destruct (String.eqb _ "$.info.contact").
  { now destruct (GetContactInfo idx). }
  destruct (String.eqb _ "$.servers[*].url"); [|reflexivity].
  induction (GetAllServerURLs idx) as [|url urls IH]; simpl in *.
  - reflexivity.
  - apply andb_prop in Hurls as [Hurl Hrest]. rewrite Hurl. simpl.
    now apply IH.
Qed.

Lemma rule_findings_clean idx rulesMap :
  GetSecuritySchemes idx <> None ->
  GetContactInfo idx <> None ->
  forallb is_https (GetAllServerURLs idx) = true ->
  rule_findings idx rulesMap = [].
Proof.
  intros Hsec Hcontact Hurls. unfold rule_findings.
  induction rulesMap as [|entry rulesMap IH]; simpl.
  - reflexivity.
  - now rewrite (findings_of_clean idx _ Hsec Hcontact Hurls), IH.
Qed.

(** X3: a document for which the index reports security schemes and a
    contact, whose server URLs all begin with https:// and on which the
    indexer itself has no finding, passes validation against every rule
    set whose rules are well formed, whatever their number, selectors
    and severities: nil is returned and the only line printed is the one
    that says the document is valid. *)
Theorem clean_document_passes filePath rulesFile w root rules rulesMap :
  loads filePath rulesFile w root rules ->
  map_index rules "rules" = VMap rulesMap ->
  all_well_formed rulesMap = true ->
  let idx := NewSpecIndex root CreateClosedAPIIndexConfig in
  GetValidationErrors idx = [] ->
  GetSecuritySchemes idx <> None ->
  GetContactInfo idx <> None ->
  forallb is_https (GetAllServerURLs idx) = true ->
  validateOpenAPIWithRules filePath rulesFile w
  = (Ret None,
     log (EvPrintln [AString "✅ OpenAPI válido com regras aplicadas:";
                     AString filePath])
         (after_reads filePath rulesFile w)).
Proof.
  intros Hloads Hrules Hwf idx Hidx Hsec Hcontact Hurls.
  rewrite (validate_loaded _ _ _ _ _ Hloads). fold idx.
  rewrite (aggregate_well_formed idx rules rulesMap Hrules Hwf).
  rewrite Hidx, (rule_findings_clean idx rulesMap Hsec Hcontact Hurls).
  reflexivity.
Qed.

(** ** Errors of loading *)

Lemma readFile_run filePath w :
  readFile filePath w
  = (Ret match files w !! filePath with
         | None =>
             inl (Errorf "erro ao ler o arquivo %s: %v"
                    [AString filePath;
                     AError (LibError ("open " +:+ filePath
                                       +:+ ": no such file or directory"))])
         | Some raw => convertToUTF8 raw
         end,
     log (EvReadFile filePath) w).
Proof.
  unfold readFile, bind, ioutil_ReadFile.
  destruct (files w !! filePath) as [raw|]; [|reflexivity].
  now destruct (convertToUTF8 raw).
Qed.

Lemma loadRules_run ruleFile w :
  loadRules ruleFile w
  = (Ret match files w !! ruleFile with
         | None =>
             inl (Errorf "erro ao ler regras YAML: %v"
                    [AError (LibError ("open " +:+ ruleFile
                                       +:+ ": no such file or directory"))])
         | Some ruleBytes =>
             match yaml_Unmarshal_map ruleBytes with
             | inl err =>
                 inl (Errorf "erro ao fazer unmarshal das regras: %v" [AError err])
             | inr rules => inr rules
             end
         end,
     log (EvReadFile ruleFile) w).
Proof.
  unfold loadRules, bind, ioutil_ReadFile.
  destruct (files w !! ruleFile) as [ruleBytes|]; [|reflexivity].
  now destruct (yaml_Unmarshal_map ruleBytes).
Qed.

(** X5: an error about the document comes first.  When the document
    cannot be read or normalized, the validation returns the error of
    [readFile] as it is; when its YAML does not parse, it returns the
    parser's error wrapped; in both cases the rule file is not opened and
    nothing is printed, whatever the state of the rule file. *)
Theorem document_error_comes_first filePath rulesFile w :
  (forall err,
      fst (readFile filePath w) = Ret (inl err) ->
      validateOpenAPIWithRules filePath rulesFile w
      = (Ret (Some err), log (EvReadFile filePath) w))
  /\ (forall data err,
        fst (readFile filePath w) = Ret (inr data) ->
        yaml_Unmarshal_Node data = inl err ->
        validateOpenAPIWithRules filePath rulesFile w
        = (Ret (Some (Errorf "erro ao fazer unmarshal do YAML: %v" [AError err])),
           log (EvReadFile filePath) w)).
Proof.
  rewrite readFile_run, validate_run. cbv zeta. simpl fst.
  split.
  - intros err Hread. injection Hread as Hread.
    destruct (files w !! filePath) as [raw|].
    + rewrite Hread. reflexivity.
    + now injection Hread as <-.
  - intros data err Hread Hparse. injection Hread as Hread.
    destruct (files w !! filePath) as [raw|]; [|discriminate Hread].
    now rewrite Hread, Hparse.
Qed.

(** X6: an error of the rule file hides the findings.  When the document
    loads but the rule file cannot be read or decoded, the validation
    returns the error of [loadRules] and prints nothing: the findings the
    indexer has for the document are neither printed nor counted. *)
Theorem rule_file_error_hides_findings filePath rulesFile w data root err :
  fst (readFile filePath w) = Ret (inr data) ->
  yaml_Unmarshal_Node data = inr root ->
  fst (loadRules rulesFile w) = Ret (inl err) ->
  validateOpenAPIWithRules filePath rulesFile w
  = (Ret (Some err),
     mkWorld (files w) (readonly w)
       (trace w ++ [EvReadFile filePath; EvReadFile rulesFile])).
Proof.
  rewrite readFile_run, loadRules_run, validate_run. cbv zeta. simpl fst.
  unfold after_reads, log. simpl. rewrite <- app_assoc. simpl.
  intros Hread Hparse Hload. injection Hread as Hread. injection Hload as Hload.
  destruct (files w !! filePath) as [raw|]; [|discriminate Hread].
  rewrite Hread, Hparse.
  destruct (files w !! rulesFile) as [ruleBytes|].
  - destruct (yaml_Unmarshal_map ruleBytes) as [err'|rules];
      [|discriminate Hload].
    now injection Hload as <-.
  - now injection Hload as <-.
Qed.

(** ** Resolution writes last *)

(** X8: [resolveOpenAPI] writes last.  It reads its input file and no
    other.  When a step before the write fails (the input cannot be read,
    normalized, parsed, indexed or serialized) it returns that step's
    error having written nothing, every file as it was.  When it returns
    nil, the output file holds the serialized resolved document, that is
    the one write of the run, and no other file has changed. *)
Theorem resolve_writes_last inputFile outputFile w :
  exists events,
    trace (snd (resolveOpenAPI inputFile outputFile w)) = trace w ++ events
    /\ reads_of events = [inputFile]
    /\ (files w !! inputFile = None ->
        (exists err, fst (resolveOpenAPI inputFile outputFile w) = Ret (Some err))
        /\ files (snd (resolveOpenAPI inputFile outputFile w)) = files w
        /\ writes_of events = [])
    /\ (forall raw err,
          files w !! inputFile = Some raw ->
          resolved_bytes raw = inl err ->
          fst (resolveOpenAPI inputFile outputFile w) = Ret (Some err)
          /\ files (snd (resolveOpenAPI inputFile outputFile w)) = files w
          /\ writes_of events = [])
    /\ (fst (resolveOpenAPI inputFile outputFile w) = Ret None ->
        exists raw resolvedYAML,
          files w !! inputFile = Some raw
          /\ resolved_bytes raw = inr resolvedYAML
          /\ files (snd (resolveOpenAPI inputFile outputFile w))
             = <[outputFile := resolvedYAML]> (files w)
          /\ writes_of events = [(outputFile, resolvedYAML)]).
Proof.
  rewrite resolveOpenAPI_run. cbv zeta. unfold log. simpl.
  destruct (files w !! inputFile) as [raw|].
  - destruct (resolved_bytes raw) as [err|resolvedYAML] eqn:Hres.
    + exists [EvReadFile inputFile]. simpl.
      split; [reflexivity|]. split; [reflexivity|].
      split; [discriminate|]. split; [|discriminate].
      intros raw' err' [= <-] Herr. rewrite Hres in Herr.
      injection Herr as <-. auto.
    + destruct (decide (outputFile ∈ readonly w)) as [Hin|Hout].
      * exists [EvReadFile inputFile]. simpl.
        split; [reflexivity|]. split; [reflexivity|].
        split; [discriminate|]. split; [|discriminate].
        intros raw' err' [= <-] Herr. rewrite Hres in Herr. discriminate Herr.
      * exists [EvReadFile inputFile; EvWriteFile outputFile resolvedYAML;
                saved_line outputFile]. simpl.
        split; [now rewrite <- !app_assoc|]. split; [reflexivity|].
        split; [discriminate|]. split.
        -- intros raw' err' [= <-] Herr. rewrite Hres in Herr.
           discriminate Herr.
        -- intros _. now exists raw, resolvedYAML.
  - exists [EvReadFile inputFile]. simpl.
    split; [reflexivity|]. split; [reflexivity|].
    split; [eauto|]. split; [discriminate|discriminate].
Qed.

Lemma resolve_succeeded inputFile outputFile w w' :
  resolveOpenAPI inputFile outputFile w = (Ret None, w') ->
  exists raw resolvedYAML,
    files w !! inputFile = Some raw
    /\ resolved_bytes raw = inr resolvedYAML
    /\ files w' = <[outputFile := resolvedYAML]> (files w)
    /\ readonly w' = readonly w.
Proof.
  rewrite resolveOpenAPI_run. cbv zeta.
  destruct (files w !! inputFile) as [raw|]; [|discriminate].
  destruct (resolved_bytes raw) as [err|resolvedYAML] eqn:Hres; [discriminate|].
  destruct (decide (outputFile ∈ readonly w)); [discriminate|].
  intros [= <-]. now exists raw, resolvedYAML.
Qed.


Lemma validate_succeeded filePath rulesFile w o w' :
  validateOpenAPIWithRules filePath rulesFile w = (o, w') ->
  files w' = files w /\ readonly w' = readonly w.
Proof.
  intros Hrun.
  destruct (validate_quiet filePath rulesFile w) as [(Hf & Hr & _) _].
  rewrite Hrun in Hf, Hr. auto.
Qed.

(** ** What the drivers leave alone *)

Lemma frame_run_refl paths w : frame_run paths w w.
Proof.
  split; [reflexivity|]. split; [reflexivity|].
  exists []. now rewrite app_nil_r.
Qed.

Lemma frame_run_trans paths w w' w'' :
  frame_run paths w w' -> frame_run paths w' w'' -> frame_run paths w w''.
Proof.
  intros (Hr & Hf & events & Ht & Hw) (Hr' & Hf' & events' & Ht' & Hw').
  split; [congruence|]. split.
  - intros p Hp. now rewrite (Hf' p Hp), (Hf p Hp).
  - exists (events ++ events'). rewrite Ht', Ht, <- app_assoc.
    split; [reflexivity|]. now rewrite forallb_app, Hw, Hw'.
Qed.

Lemma frame_run_log paths w e :
  writes_within paths e = true -> frame_run paths w (log e w).
Proof.
  intros He. split; [reflexivity|]. split; [reflexivity|].
  exists [e]. simpl. now rewrite He.
Qed.

Lemma quiet_run_frame paths' paths w w' :
  quiet_run paths' w w' -> frame_run paths w w'.
Proof.
  intros (Hf & Hr & events & Ht & Hq).
  split; [assumption|]. split; [intros p _; now rewrite Hf|].
  exists events. split; [assumption|].
  clear Ht. induction events as [|e events IH]; [reflexivity|].
  simpl in *. apply andb_prop in Hq as [He Hq]. rewrite (IH Hq).
  now destruct e.
Qed.

Lemma resolve_frame inputFile outputFile paths w :
  existsb (String.eqb outputFile) paths = true ->
  frame_run paths w (snd (resolveOpenAPI inputFile outputFile w)).
Proof.
  intros Hout. rewrite resolveOpenAPI_run. cbv zeta.
  destruct (files w !! inputFile) as [raw|];
    [|now apply frame_run_log].
  destruct (resolved_bytes raw) as [err|resolvedYAML];
    [now apply frame_run_log|].
  destruct (decide (outputFile ∈ readonly w)); [now apply frame_run_log|].
  split; [reflexivity|]. split.
  - intros p Hp. simpl. apply lookup_insert_ne. intros ->. congruence.
  - exists [EvReadFile inputFile; EvWriteFile outputFile resolvedYAML;
            saved_line outputFile].
    simpl. rewrite Hout. split; [|reflexivity].
    now rewrite <- !app_assoc.
Qed.

Lemma exit_on_error_frame paths action report w :
  frame_run paths w (snd (action w)) ->
  frame_run paths w (snd (exit_on_error action report w)).
Proof.
  intros Hact. unfold exit_on_error, bind.
  destruct (action w) as [[[err|]|msg|code] w']; simpl in *; try assumption.
  apply (frame_run_trans _ _ _ _ Hact). now apply frame_run_log.
Qed.

Lemma run_stages_frame paths stages :
  Forall (fun s : stage => forall w, frame_run paths w (snd (fst s w))) stages ->
  forall w, frame_run paths w (snd (run_stages stages w)).
Proof.
  induction 1 as [|[action report] stages Hs _ IH]; intros w; simpl.
  - apply frame_run_refl.
  - unfold bind.
    pose proof (exit_on_error_frame paths action report w (Hs w)) as Hstep.
    destruct (exit_on_error action report w) as [[[]|msg|code] w'];
      simpl in *; try assumption.
    exact (frame_run_trans _ _ _ _ Hstep (IH w')).
Qed.

Lemma then_print_frame paths (c : M World unit) args w :
  frame_run paths w (snd (c w)) ->
  frame_run paths w (snd ((c ;;; fmt_Println args) w)).
Proof.
  intros Hc. unfold bind.
  destruct (c w) as [[[]|msg|code] w']; simpl in *; try assumption.
  apply (frame_run_trans _ _ _ _ Hc). now apply frame_run_log.
Qed.

Lemma resolve_only_run_stages prog oldFile newFile rest w :
  ResolveOnly.main (prog :: oldFile :: newFile :: rest) w
  = (run_stages (resolve_pipeline oldFile newFile) ;;;
     fmt_Println [AString "🚀 OpenAPI validado e arquivos resolvidos gerados com sucesso!"]) w.
Proof.
  unfold ResolveOnly.main, resolve_pipeline. simpl. unfold bind.
  repeat match goal with
         | |- context [exit_on_error ?a ?r ?w0] =>
             destruct (exit_on_error a r w0) as [[[]|?|?] ?]
         end; reflexivity.
Qed.

(** X9: whatever their arguments and whatever happens, neither driver
    touches a file other than oldSwaggerResolve.yaml and
    swaggerResolve.yaml: every other path keeps its content, no
    permission changes, and every write recorded is to one of the two. *)
Theorem drivers_write_outputs_only Args w :
  frame_run [old_output; new_output] w (snd (main Args w))
  /\ frame_run [old_output; new_output] w (snd (ResolveOnly.main Args w)).
Proof.
  assert (Hvalidate : forall filePath rulesFile w0,
             frame_run [old_output; new_output] w0
               (snd (validateOpenAPIWithRules filePath rulesFile w0))).
  { intros filePath rulesFile w0.
    exact (quiet_run_frame _ _ _ _ (proj1 (validate_quiet filePath rulesFile w0))). }
  assert (Hold : forall inputFile w0,
             frame_run [old_output; new_output] w0
               (snd (resolveOpenAPI inputFile "oldSwaggerResolve.yaml" w0)))
    by (intros; now apply resolve_frame).
  assert (Hnew : forall inputFile w0,
             frame_run [old_output; new_output] w0
               (snd (resolveOpenAPI inputFile "swaggerResolve.yaml" w0)))
    by (intros; now apply resolve_frame).
  split.
  - destruct Args as [|prog [|oldFile [|newFile [|rulesFile rest]]]];
      try (now apply frame_run_log).
    rewrite main_run_stages. apply then_print_frame.
    apply run_stages_frame. unfold pipeline.
    repeat (apply List.Forall_cons; [intros w0; simpl; auto|]).
    apply List.Forall_nil.
  - destruct Args as [|prog [|oldFile [|newFile rest]]];
      try (now apply frame_run_log).
    rewrite resolve_only_run_stages. apply then_print_frame.
    apply run_stages_frame. unfold resolve_pipeline.
    repeat (apply List.Forall_cons; [intros w0; simpl; auto|]).
    apply List.Forall_nil.
Qed.

(** ** What the drivers leave behind *)

Lemma run_stages_returned stages w :
  fst (run_stages stages w) = Ret tt ->
  exists w', run_succeeding stages w = Some w'
             /\ run_stages stages w = (Ret tt, w').
Proof.
  revert w. induction stages as [|[action report] stages IH]; intros w; simpl.
  - intros _. now exists w.
  - unfold bind at 1 2, exit_on_error, bind.
    destruct (action w) as [[[err|]|msg|code] w1]; simpl; try discriminate.
    unfold ret. apply IH.
Qed.

Lemma then_print_returned (c : M World unit) args w :
  fst ((c ;;; fmt_Println args) w) = Ret tt ->
  fst (c w) = Ret tt
  /\ snd ((c ;;; fmt_Println args) w) = log (EvPrintln args) (snd (c w)).
Proof.
  unfold bind. destruct (c w) as [[[]|msg|code] w']; simpl; try discriminate.
  auto.
Qed.

Lemma two_resolves oldFile newFile w w' :
  run_succeeding (resolve_pipeline oldFile newFile) w = Some w' ->
  both_resolved oldFile newFile (files w) (files w').
Proof.
  unfold resolve_pipeline. simpl.
  destruct (resolveOpenAPI oldFile "oldSwaggerResolve.yaml" w)
    as [[[err|]|msg|code] w1] eqn:Hold; try discriminate.
  destruct (resolveOpenAPI newFile "swaggerResolve.yaml" w1)
    as [[[err|]|msg|code] w2] eqn:Hnew; try discriminate.
  intros [= <-].
  destruct (resolve_succeeded _ _ _ _ Hold)
    as (rawOld & resolvedOld & HrawOld & HresOld & Hfiles1 & _).
  destruct (resolve_succeeded _ _ _ _ Hnew)
    as (rawNew & resolvedNew & HrawNew & HresNew & Hfiles2 & _).
  exists rawOld, rawNew, resolvedOld, resolvedNew.
  rewrite Hfiles2, Hfiles1. rewrite Hfiles1 in HrawNew.
  repeat split; try assumption.
  - rewrite lookup_insert_ne by discriminate. apply lookup_insert_eq.
  - apply lookup_insert_eq.
Qed.

(** X10: when the full pipeline returns (status 0), both output files
    exist: oldSwaggerResolve.yaml holds the resolved form of the old
    document, swaggerResolve.yaml the resolved form of the new document
    as it was found after the first file had been saved, and the files
    are otherwise as they were at the start. *)
Theorem pipeline_success_outputs prog oldFile newFile rulesFile rest w :
  fst (main (prog :: oldFile :: newFile :: rulesFile :: rest) w) = Ret tt ->
  both_resolved oldFile newFile (files w)
    (files (snd (main (prog :: oldFile :: newFile :: rulesFile :: rest) w))).
Proof.
  rewrite main_run_stages. intros Hret.
  destruct (then_print_returned _ _ _ Hret) as [Hstages ->].
  destruct (run_stages_returned _ _ Hstages) as (w' & Hok & ->).
  simpl snd. simpl files.
  unfold pipeline in Hok. simpl in Hok.
  destruct (validateOpenAPIWithRules oldFile rulesFile w)
    as [[[err|]|msg|code] w1] eqn:Hv1; try discriminate.
  destruct (validateOpenAPIWithRules newFile rulesFile w1)
    as [[[err|]|msg|code] w2] eqn:Hv2; try discriminate.
  destruct (validate_succeeded _ _ _ _ _ Hv1) as [Hf1 _].
  destruct (validate_succeeded _ _ _ _ _ Hv2) as [Hf2 _].
  rewrite <- Hf1, <- Hf2.
  apply two_resolves. exact Hok.
Qed.


Lemma resolve_returns inputFile outputFile w :
  exists result, fst (resolveOpenAPI inputFile outputFile w) = Ret result.
Proof.
  rewrite resolveOpenAPI_run. cbv zeta.
  destruct (files w !! inputFile) as [raw|]; [|simpl; eauto].
  destruct (resolved_bytes raw); [simpl; eauto|].
  destruct (decide (outputFile ∈ readonly w)); simpl; eauto.
Qed.


(** X14: the full pipeline ends with status 0, 1 or 2, and with 2 (a
    panic) only when the rule file has loaded and its [rules] mapping
    holds a rule that is not well formed; resolution never panics. *)
Theorem pipeline_exit_status prog oldFile newFile rulesFile rest w :
  let Args := prog :: oldFile :: newFile :: rulesFile :: rest in
  (exit_status (fst (main Args w)) = 0%Z
   \/ exit_status (fst (main Args w)) = 1%Z
   \/ exit_status (fst (main Args w)) = 2%Z)
  /\ (exit_status (fst (main Args w)) = 2%Z ->
      exists ruleBytes rules rulesMap,
        files w !! rulesFile = Some ruleBytes
        /\ yaml_Unmarshal_map ruleBytes = inr rules
        /\ map_index rules "rules" = VMap rulesMap
        /\ all_well_formed rulesMap = false).
Proof.
  intros Args. unfold Args. rewrite main_run_stages.
  unfold pipeline. simpl. unfold bind, exit_on_error, bind.
  pose proof (validate_panic_cause oldFile rulesFile w) as Hcause1.
  destruct (validate_quiet oldFile rulesFile w) as [_ Hnoexit1].
  destruct (validateOpenAPIWithRules oldFile rulesFile w)
    as [[[e|]|msg|code] w1] eqn:Hv1; simpl.
  - split; [auto|discriminate].
  - destruct (validate_succeeded _ _ _ _ _ Hv1) as [Hf1 _].
    pose proof (validate_panic_cause newFile rulesFile w1) as Hcause2.
    destruct (validate_quiet newFile rulesFile w1) as [_ Hnoexit2].
    destruct (validateOpenAPIWithRules newFile rulesFile w1)
      as [[[e|]|msg|code] w2] eqn:Hv2; simpl.
    + split; [auto|discriminate].
    + destruct (resolve_returns oldFile "oldSwaggerResolve.yaml" w2) as [r3 Hr3].
      destruct (resolveOpenAPI oldFile "oldSwaggerResolve.yaml" w2) as [o3 w3].
      simpl in Hr3. subst o3.
      destruct r3 as [e|]; simpl; [split; [auto|discriminate]|].
      destruct (resolve_returns newFile "swaggerResolve.yaml" w3) as [r4 Hr4].
      destruct (resolveOpenAPI newFile "swaggerResolve.yaml" w3) as [o4 w4].
      simpl in Hr4. subst o4.
      destruct r4 as [e|]; simpl; split; auto; discriminate.
    + split; [auto|]. intros _.
      destruct (Hcause2 msg eq_refl) as [Hcause _].
      now rewrite Hf1 in Hcause.
    + now destruct (Hnoexit2 code).
  - split; [auto|]. intros _. now destruct (Hcause1 msg eq_refl).
  - now destruct (Hnoexit1 code).
Qed.

(** ** The https test *)

Lemma bytes_HasPrefix_app s prefix :
  bytes_HasPrefix s prefix = true <-> exists rest, s = prefix ++ rest.
Proof.
  revert s. induction prefix as [|p prefix IH]; intros s; simpl.
  - split; [intros _; now exists s|intros _; now destruct s].
  - destruct s as [|b s].
    + split; [discriminate|intros [rest Hrest]; discriminate Hrest].
    + split.
      * simpl. intros Hpre. apply andb_prop in Hpre as [Hb Hrest].
        apply byte_dec_bl in Hb. subst b.
        apply IH in Hrest as [rest ->]. now exists rest.
      * intros [rest [= -> ->]]. simpl.
        rewrite (byte_dec_lb eq_refl). simpl. apply IH. now exists rest.
Qed.

Lemma list_byte_of_string_app a b :
  list_byte_of_string (a +:+ b) = list_byte_of_string a ++ list_byte_of_string b.
Proof.
  unfold list_byte_of_string.
  induction a as [|c a IH]; simpl; [reflexivity|]. now rewrite IH.
Qed.

(** X13: the test the server rule applies to a URL holds exactly when
    the URL is the text https:// followed by anything; it compares bytes,
    so another spelling of the scheme (HTTPS://) or another scheme
    (http://) never passes. *)
Theorem https_test_is_a_prefix_test url :
  (is_https url = true <-> exists rest, url = "https://" +:+ rest)
  /\ (forall rest, is_https ("HTTPS://" +:+ rest) = false)
  /\ (forall rest, is_https ("http://" +:+ rest) = false).
Proof.
  split; [split|split].
  - intros Hurl. unfold is_https in Hurl.
    apply bytes_HasPrefix_app in Hurl as [rest Hrest].
    exists (string_of_list_byte rest).
    rewrite <- (string_of_list_byte_of_string url), Hrest.
    rewrite <- (string_of_list_byte_of_string ("https://" +:+ _)).
    now rewrite list_byte_of_string_app, list_byte_of_string_of_list_byte.
  - intros [rest ->]. unfold is_https. apply bytes_HasPrefix_app.
    exists (list_byte_of_string rest). apply list_byte_of_string_app.
  - intros rest. unfold is_https. now rewrite list_byte_of_string_app.
  - intros rest. unfold is_https. now rewrite list_byte_of_string_app.
Qed.

(** ** The order in which the rules are visited *)

Lemma all_well_formed_perm rulesMap rulesMap' :
  rulesMap ≡ₚ rulesMap' ->
  all_well_formed rulesMap = all_well_formed rulesMap'.
Proof.
  unfold all_well_formed.
  induction 1 as [|x l l' _ IH|x y l|l l' l'' _ IH1 _ IH2]; simpl.
  - reflexivity.
  - now rewrite IH.
  - now rewrite !andb_assoc, (andb_comm (well_formed_rule _)).
  - congruence.
Qed.

Lemma rule_findings_perm idx rulesMap rulesMap' :
  rulesMap ≡ₚ rulesMap' ->
  rule_findings idx rulesMap ≡ₚ rule_findings idx rulesMap'.
Proof.
  unfold rule_findings.
  induction 1 as [|x l l' _ IH|x y l|l l' l'' _ IH1 _ IH2]; simpl.
  - reflexivity.
  - now apply Permutation_app_head.
  - rewrite !app_assoc. apply Permutation_app_tail. apply Permutation_app_comm.
  - now transitivity (concat (map (fun entry => findings_of idx (snd entry)) l')).
Qed.

(** X15: the result of a validation does not depend on the order in
    which the rules map is visited.  For two loadings of the same
    document whose rule sets hold the same rules in different orders, one
    run panics if and only if the other does; and when the rules are well
    formed the two runs return the same value and their findings are the
    same up to order. *)
Theorem result_independent_of_visiting_order
    filePath rulesFile rulesFile' w w' root rules rules' rulesMap rulesMap' :
  loads filePath rulesFile w root rules ->
  loads filePath rulesFile' w' root rules' ->
  map_index rules "rules" = VMap rulesMap ->
  map_index rules' "rules" = VMap rulesMap' ->
  rulesMap ≡ₚ rulesMap' ->
  let idx := NewSpecIndex root CreateClosedAPIIndexConfig in
  ((exists msg, fst (validateOpenAPIWithRules filePath rulesFile w) = Panic msg)
   <-> (exists msg,
          fst (validateOpenAPIWithRules filePath rulesFile' w') = Panic msg))
  /\ (all_well_formed rulesMap = true ->
      fst (validateOpenAPIWithRules filePath rulesFile' w')
      = fst (validateOpenAPIWithRules filePath rulesFile w)
      /\ snd (aggregate idx rules') ≡ₚ snd (aggregate idx rules)).
Proof.
  intros Hloads Hloads' Hrules Hrules' Hperm idx.
  pose proof (all_well_formed_perm _ _ Hperm) as Hsame.
  destruct (all_well_formed rulesMap) eqn:Hwf.
  - assert (Hwf' : all_well_formed rulesMap' = true) by congruence.
    rewrite (well_formed_rules_verdict _ _ _ _ _ _ Hloads Hrules Hwf).
    rewrite (well_formed_rules_verdict _ _ _ _ _ _ Hloads' Hrules' Hwf').
    fold idx.
    pose proof (rule_findings_perm idx _ _ Hperm) as Hfindings.
    split.
    + split; intros [msg Hmsg];
        match type of Hmsg with
        | fst (verdict _ ?fs _) = _ => destruct fs; discriminate Hmsg
        end.
    + intros _. split.
      * apply verdict_same_length. rewrite !length_app.
        now rewrite (Permutation_length Hfindings).
      * rewrite (aggregate_well_formed idx rules rulesMap Hrules Hwf).
        rewrite (aggregate_well_formed idx rules' rulesMap' Hrules' Hwf').
        simpl. apply Permutation_app_head. now symmetry.
  - assert (Hwf' : all_well_formed rulesMap' = false) by congruence.
    destruct (malformed_rule_panics _ _ _ _ _ _ Hloads Hrules Hwf) as [msg ->].
    destruct (malformed_rule_panics _ _ _ _ _ _ Hloads' Hrules' Hwf')
      as [msg' ->].
    split; [|discriminate]. simpl. split; eauto.
Qed.

(** ** Too few arguments *)

(** X16: with fewer arguments than it needs, a driver prints its usage
    line and returns: the process ends with status 0, as after a
    successful run, having read and written nothing. *)
Theorem too_few_arguments (Args : list string) (w : World) :
  (List.length Args < 4 ->
   main Args w
   = (Ret tt,
      log (EvPrintln [AString "Uso: go run main.go oldSwagger.yaml swagger.yaml pb33f_rules.yaml"]) w)
   /\ exit_status (fst (main Args w)) = 0%Z)
  /\ (List.length Args < 3 ->
      ResolveOnly.main Args w
      = (Ret tt,
         log (EvPrintln [AString "Uso: go run main.go oldSwagger.yaml swagger.yaml"]) w)
      /\ exit_status (fst (ResolveOnly.main Args w)) = 0%Z).
Proof.
  split; intros Hlen.
  - unfold main. apply Nat.ltb_lt in Hlen. rewrite Hlen. now split.
  - unfold ResolveOnly.main. apply Nat.ltb_lt in Hlen. rewrite Hlen. now split.
Qed.

End More.

(** * The programs on concrete files *)

Section Runs.
Import Demo.

(** Both inputs load in the stand-in: the witnesses are the texts. *)
Ltac demo_loads doc ruleText :=
  exists (list_byte_of_string doc), (list_byte_of_string doc),
         (list_byte_of_string ruleText);
  repeat split; vm_compute; reflexivity.

Lemma demo_loads_invalid :
  loads "invalid.yaml" "rules.yaml" world node_invalid [("rules", VMap builtin_map)].
Proof. demo_loads doc_invalid rules_builtin. Defined.

Lemma fail_fast_witness :
  fst (validateOpenAPIWithRules "invalid.yaml" "rules.yaml" world) <> Ret None
  /\ exit_status (fst (main demo_args world)) <> 0%Z
  /\ quiet_run ["invalid.yaml"; "rules.yaml"] world (snd (main demo_args world))
  /\ main demo_args world
     = (Exit 1,
        log (EvPrintln [AString "❌ OpenAPI inválido:"; AString "invalid.yaml"])
            (snd (validateOpenAPIWithRules "invalid.yaml" "rules.yaml" world))).
Proof.
  assert (Hfails : fst (validateOpenAPIWithRules "invalid.yaml" "rules.yaml" world)
                   <> Ret None).
  { intros Heq. vm_compute in Heq. discriminate Heq. }
  pose proof (fail_fast "pipeline" "invalid.yaml" "new.yaml" "rules.yaml" [] world)
    as (Hgeneral & _ & Hold).
  split; [exact Hfails|].
  destruct (Hold Hfails) as [Hstatus Hquiet].
  split; [exact Hstatus|]. split; [exact Hquiet|].
  destruct (Hgeneral [] _ _ world eq_refl eq_refl) as [Herr _].
  apply (Herr falha). vm_compute. reflexivity.
Defined.

Lemma validation_fails_iff_findings_witness :
  loads "invalid.yaml" "rules.yaml" world node_invalid [("rules", VMap builtin_map)]
  /\ aggregate tree_invalid [("rules", VMap builtin_map)] = (Ret tt, demo_findings)
  /\ ((exists err,
         fst (validateOpenAPIWithRules "invalid.yaml" "rules.yaml" world)
         = Ret (Some err))
      <-> demo_findings <> [])
  /\ fst (validateOpenAPIWithRules "invalid.yaml" "relaxed.yaml" world)
     = fst (validateOpenAPIWithRules "invalid.yaml" "rules.yaml" world).
Proof.
  pose proof (validation_fails_iff_findings "invalid.yaml" "rules.yaml" world
                node_invalid _ demo_loads_invalid) as [Hiff Hseverity].
  assert (Hagg : aggregate tree_invalid [("rules", VMap builtin_map)]
                 = (Ret tt, demo_findings)) by (vm_compute; reflexivity).
  split; [exact demo_loads_invalid|]. split; [exact Hagg|].
  split; [exact (Hiff demo_findings Hagg)|].
  apply (Hseverity "relaxed.yaml" world
           [("rules", VMap (map_severity (fun _ => "hint") builtin_map))]
           builtin_map (fun _ => "hint")).
  - demo_loads doc_invalid rules_relaxed.
  - reflexivity.
  - reflexivity.
Defined.


Lemma demo_loads_incomplete :
  loads "invalid.yaml" "incomplete.yaml" world node_invalid
    [("rules", VMap incomplete_map)].
Proof. demo_loads doc_invalid rules_incomplete. Defined.

Lemma incomplete_rule_panics_witness :
  lacks_required_field broken_rule = true
  /\ fst (loadRules "incomplete.yaml" world) = Ret (inr [("rules", VMap incomplete_map)])
  /\ aggregate tree_invalid [("rules", VMap incomplete_map)]
     = (Panic "interface conversion: interface {} is nil, not string",
        [Errorf "[%s] %s" [AString "warn"; AValue (VString "no contact")]])
  /\ validateOpenAPIWithRules "invalid.yaml" "incomplete.yaml" world
     = (Panic "interface conversion: interface {} is nil, not string",
        after_reads "invalid.yaml" "incomplete.yaml" world).
Proof.
  split; [reflexivity|].
  exact (incomplete_rule_panics "invalid.yaml" "incomplete.yaml" world
           node_invalid [("rules", VMap incomplete_map)]
           [("contact", contact_rule)] "broken" broken_rule []
           demo_loads_incomplete eq_refl eq_refl eq_refl).
Defined.

(** C4 as worded fails on [incomplete.yaml]: the file loads, and when the
    loop panics at the rule without [given] the contact rule visited
    before it has been evaluated and has added its finding. *)
Lemma incomplete_rules_partly_evaluated :
  ~ rejected_unevaluated (H := collaborators) tree_invalid "incomplete.yaml" world.
Proof.
  intros [[err Herr]|Hall].
  - vm_compute in Herr. discriminate Herr.
  - destruct (Hall [("rules", VMap incomplete_map)] incomplete_map
                eq_refl eq_refl) as [msg Hmsg].
    vm_compute in Hmsg. discriminate Hmsg.
Qed.

Lemma findings_in_rule_order_witness :
  loads "invalid.yaml" "rules.yaml" world node_invalid [("rules", VMap builtin_map)]
  /\ all_well_formed builtin_map = true
  /\ aggregate tree_invalid [("rules", VMap builtin_map)]
     = (Ret tt,
        GetValidationErrors tree_invalid
        ++ concat (map (fun entry => findings_of tree_invalid (snd entry))
                       builtin_map))
  /\ validateOpenAPIWithRules "invalid.yaml" "rules.yaml" world
     = verdict "invalid.yaml"
         (GetValidationErrors tree_invalid
          ++ concat (map (fun entry => findings_of tree_invalid (snd entry))
                         builtin_map))
         (after_reads "invalid.yaml" "rules.yaml" world).
Proof.
  split; [exact demo_loads_invalid|]. split; [reflexivity|].
  exact (findings_in_rule_order "invalid.yaml" "rules.yaml" world node_invalid
           [("rules", VMap builtin_map)] builtin_map
           demo_loads_invalid eq_refl eq_refl).
Defined.

(** C5 as worded fails when the server rule is visited before the
    contact rule: the finding for the http URL then precedes the contact
    finding instead of coming after every other rule's findings. *)
Lemma server_findings_not_last :
  aggregate (H := collaborators) tree_invalid [("rules", VMap https_first_map)]
  <> (Ret tt, three_block_order tree_invalid https_first_map).
Proof. intros Heq. vm_compute in Heq. discriminate Heq. Qed.

Lemma builtin_rules_findings_witness :
  well_formed_rule https_rule = true
  /\ (exists findings,
        applyRule (H := collaborators) tree_invalid ("https", https_rule) []
        = (Ret tt, [] ++ findings)
        /\ List.length findings
           = List.length (List.filter (fun url => negb (is_https url))
                                      (GetAllServerURLs tree_invalid)))
  /\ (exists findings,
        applyRules tree_invalid builtin_map [] = (Ret tt, findings)
        /\ List.length findings = 3).
Proof.
  pose proof (builtin_rules_findings (H := collaborators) tree_invalid "https" https_rule []
                eq_refl) as [[findings (Hrun & _ & _ & Hservers)] Hthree].
  split; [reflexivity|]. split.
  - exists findings. split; [exact Hrun|]. exact (Hservers eq_refl).
  - apply Hthree; reflexivity.
Defined.


Lemma demo_loads_empty :
  loads "old.yaml" "empty.yaml" world node_valid [].
Proof. demo_loads doc_valid rules_empty. Defined.

Lemma no_rules_section_no_rules_witness :
  loads "old.yaml" "empty.yaml" world node_valid []
  /\ (forall rulesMap, map_index [] "rules" <> VMap rulesMap)
  /\ fst (loadRules "empty.yaml" world) = Ret (inr [])
  /\ aggregate tree_valid [] = (Ret tt, GetValidationErrors tree_valid)
  /\ validateOpenAPIWithRules "old.yaml" "empty.yaml" world
     = verdict "old.yaml" (GetValidationErrors tree_valid)
         (after_reads "old.yaml" "empty.yaml" world).
Proof.
  assert (Hnone : forall rulesMap, map_index [] "rules" <> VMap rulesMap)
    by (intros rulesMap Heq; discriminate Heq).
  split; [exact demo_loads_empty|]. split; [exact Hnone|].
  exact (no_rules_section_no_rules "old.yaml" "empty.yaml" world node_valid []
           demo_loads_empty Hnone).
Defined.

(** C10 as worded fails on a rule file whose top level is a sequence: the
    file is well-formed YAML without a [rules] mapping, and [loadRules]
    returns the decoder's type error. *)
Lemma sequence_rule_file_rejected :
  ~ tolerated_without_rules "sequence.yaml" world.
Proof.
  intros Htol.
  destruct (Htol (list_byte_of_string rules_sequence) (VSlice [])
              eq_refl eq_refl eq_refl) as [rules Hrules].
  vm_compute in Hrules. discriminate Hrules.
Qed.

Lemma convertToUTF8_without_BOM_witness :
  has_BOM (list_byte_of_string doc_valid) = false
  /\ convertToUTF8 (list_byte_of_string doc_valid)
     = inr (list_byte_of_string doc_valid)
  /\ convertToUTF8 (list_byte_of_string doc_valid)
     = convertToUTF8 (list_byte_of_string doc_valid).
Proof.
  destruct (convertToUTF8_without_BOM (list_byte_of_string doc_valid) eq_refl)
    as [Hsame Hidem].
  split; [reflexivity|]. split; [exact Hsame|].
  exact (Hidem (list_byte_of_string doc_valid) Hsame).
Defined.

End Runs.

(** * More runs on concrete files *)

Section MoreRuns.
Import Demo.

(** Both inputs load in a stand-in: the witnesses are the texts. *)
Ltac sample_loads doc ruleText :=
  exists (list_byte_of_string doc), (list_byte_of_string doc),
         (list_byte_of_string ruleText);
  repeat split; vm_compute; reflexivity.

Lemma demo_loads_valid :
  loads "old.yaml" "rules.yaml" world node_valid [("rules", VMap builtin_map)].
Proof. sample_loads doc_valid rules_builtin. Defined.

Lemma clean_document_passes_witness :
  loads "old.yaml" "rules.yaml" world node_valid [("rules", VMap builtin_map)]
  /\ all_well_formed builtin_map = true
  /\ forallb is_https (GetAllServerURLs tree_valid) = true
  /\ validateOpenAPIWithRules "old.yaml" "rules.yaml" world
     = (Ret None,
        log (EvPrintln [AString "✅ OpenAPI válido com regras aplicadas:";
                        AString "old.yaml"])
            (after_reads "old.yaml" "rules.yaml" world)).
Proof.
  split; [exact demo_loads_valid|]. split; [reflexivity|].
  split; [reflexivity|].
  apply (clean_document_passes (H := collaborators) "old.yaml" "rules.yaml" world node_valid
           [("rules", VMap builtin_map)] builtin_map demo_loads_valid
           eq_refl eq_refl eq_refl);
    [discriminate|discriminate|reflexivity].
Defined.

Lemma rule_findings_are_copies_witness :
  well_formed_rule https_rule = true
  /\ exists count,
       applyRule (H := collaborators) tree_invalid ("https", https_rule) []
       = (Ret tt,
          [] ++ List.repeat
                  (Errorf "[%s] %s"
                     [AString (severity_of https_rule);
                      AValue (map_index (rule_data_of https_rule) "description")])
                  count)
       /\ applyRule (H := collaborators) tree_invalid ("renamed", https_rule) []
          = applyRule (H := collaborators) tree_invalid ("https", https_rule) []
       /\ count <= Nat.max 1 (List.length (GetAllServerURLs tree_invalid)).
Proof.
  split; [reflexivity|].
  exact (rule_findings_are_copies (H := collaborators) tree_invalid
           "https" "renamed" https_rule [] eq_refl).
Defined.

Lemma document_error_comes_first_witness :
  fst (readFile "absent.yaml" world)
  = Ret (inl (Errorf "erro ao ler o arquivo %s: %v"
                [AString "absent.yaml";
                 AError (LibError "open absent.yaml: no such file or directory")]))
  /\ validateOpenAPIWithRules "absent.yaml" "rules.yaml" world
     = (Ret (Some (Errorf "erro ao ler o arquivo %s: %v"
                     [AString "absent.yaml";
                      AError (LibError "open absent.yaml: no such file or directory")])),
        log (EvReadFile "absent.yaml" ) world)
  /\ fst (readFile "garbage.yaml" Samples.world) = Ret (inr (list_byte_of_string "{"))
  /\ validateOpenAPIWithRules "garbage.yaml" "rules.yaml" Samples.world
     = (Ret (Some (Errorf "erro ao fazer unmarshal do YAML: %v"
                     [AError (LibError "yaml: document not known to the stand-in decoder")])),
        log (EvReadFile "garbage.yaml") Samples.world).
Proof.
  destruct (document_error_comes_first (H := collaborators) "absent.yaml" "rules.yaml" world)
    as [Hread _].
  destruct (document_error_comes_first (H := collaborators) "garbage.yaml" "rules.yaml" Samples.world)
    as [_ Hparse].
  split; [reflexivity|]. split; [exact (Hread _ eq_refl)|].
  split; [reflexivity|].
  exact (Hparse (list_byte_of_string "{") _ eq_refl eq_refl).
Defined.

Lemma rule_file_error_hides_findings_witness :
  fst (readFile "invalid.yaml" world) = Ret (inr (list_byte_of_string doc_invalid))
  /\ fst (loadRules "absent.yaml" world)
     = Ret (inl (Errorf "erro ao ler regras YAML: %v"
                   [AError (LibError "open absent.yaml: no such file or directory")]))
  /\ validateOpenAPIWithRules "invalid.yaml" "absent.yaml" world
     = (Ret (Some (Errorf "erro ao ler regras YAML: %v"
                     [AError (LibError "open absent.yaml: no such file or directory")])),
        mkWorld (files world) (readonly world)
          (trace world ++ [EvReadFile "invalid.yaml"; EvReadFile "absent.yaml"])).
Proof.
  split; [reflexivity|]. split; [reflexivity|].
  exact (rule_file_error_hides_findings (H := collaborators) "invalid.yaml" "absent.yaml" world
           (list_byte_of_string doc_invalid) node_invalid _
           eq_refl eq_refl eq_refl).
Defined.

Lemma validation_panics_iff_malformed_rule_witness :
  loads "invalid.yaml" "incomplete.yaml" world node_invalid
    [("rules", VMap incomplete_map)]
  /\ all_well_formed incomplete_map = false
  /\ (exists msg,
        fst (validateOpenAPIWithRules "invalid.yaml" "incomplete.yaml" world)
        = Panic msg)
  /\ snd (validateOpenAPIWithRules "invalid.yaml" "incomplete.yaml" world)
     = after_reads "invalid.yaml" "incomplete.yaml" world.
Proof.
  destruct (validation_panics_iff_malformed_rule (H := collaborators) "invalid.yaml" "incomplete.yaml"
              world node_invalid [("rules", VMap incomplete_map)] incomplete_map
              demo_loads_incomplete eq_refl) as [Hiff Hworld].
  split; [exact demo_loads_incomplete|]. split; [reflexivity|].
  split; [exact (proj2 Hiff eq_refl)|exact (Hworld eq_refl)].
Defined.

Lemma pipeline_success_outputs_witness :
  fst (main Samples.good_args world) = Ret tt
  /\ both_resolved "old.yaml" "new.yaml" (files world)
       (files (snd (main Samples.good_args world))).
Proof.
  assert (Hret : fst (main Samples.good_args world) = Ret tt)
    by (vm_compute; reflexivity).
  split; [exact Hret|].
  exact (pipeline_success_outputs (H := collaborators) "pipeline" "old.yaml" "new.yaml" "rules.yaml"
           [] world Hret).
Defined.



Lemma https_test_is_a_prefix_test_witness :
  (exists rest, "https://example.com" = "https://" +:+ rest)
  /\ is_https "https://example.com" = true.
Proof.
  assert (Hrest : exists rest, "https://example.com" = "https://" +:+ rest)
    by (now exists "example.com").
  split; [exact Hrest|].
  exact (proj2 (proj1 (https_test_is_a_prefix_test "https://example.com")) Hrest).
Defined.

Lemma pipeline_exit_status_witness :
  exit_status
    (fst (main ["pipeline"; "old.yaml"; "new.yaml"; "incomplete.yaml"] world))
  = 2%Z
  /\ exists ruleBytes rules rulesMap,
       files world !! "incomplete.yaml" = Some ruleBytes
       /\ yaml_Unmarshal_map ruleBytes = inr rules
       /\ map_index rules "rules" = VMap rulesMap
       /\ all_well_formed rulesMap = false.
Proof.
  assert (Hstatus : exit_status
                      (fst (main ["pipeline"; "old.yaml"; "new.yaml";
                                  "incomplete.yaml"] world)) = 2%Z)
    by (vm_compute; reflexivity).
  split; [exact Hstatus|].
  exact (proj2 (pipeline_exit_status (H := collaborators) "pipeline" "old.yaml" "new.yaml"
                  "incomplete.yaml" [] world) Hstatus).
Defined.

Lemma samples_loads_builtin :
  loads (H := Samples.collaborators) "invalid.yaml" "rules.yaml" Samples.world
    node_invalid [("rules", VMap builtin_map)].
Proof. sample_loads doc_invalid rules_builtin. Defined.

Lemma samples_loads_reversed :
  loads (H := Samples.collaborators) "invalid.yaml" "reversed.yaml" Samples.world
    node_invalid [("rules", VMap Samples.reversed_map)].
Proof. sample_loads doc_invalid Samples.rules_reversed. Defined.

Lemma result_independent_of_visiting_order_witness :
  builtin_map ≡ₚ Samples.reversed_map
  /\ all_well_formed builtin_map = true
  /\ fst (validateOpenAPIWithRules (H := Samples.collaborators)
            "invalid.yaml" "reversed.yaml" Samples.world)
     = fst (validateOpenAPIWithRules (H := Samples.collaborators)
              "invalid.yaml" "rules.yaml" Samples.world)
  /\ snd (aggregate (H := Samples.collaborators) tree_invalid
            [("rules", VMap Samples.reversed_map)])
     ≡ₚ snd (aggregate (H := Samples.collaborators) tree_invalid
               [("rules", VMap builtin_map)]).
Proof.
  assert (Hperm : builtin_map ≡ₚ Samples.reversed_map)
    by (change Samples.reversed_map with (rev builtin_map);
        apply Permutation_rev).
  destruct (result_independent_of_visiting_order (H := Samples.collaborators)
              "invalid.yaml" "rules.yaml" "reversed.yaml"
              Samples.world Samples.world node_invalid _ _ _ _
              samples_loads_builtin samples_loads_reversed
              eq_refl eq_refl Hperm) as [_ Hsame].
  split; [exact Hperm|]. split; [reflexivity|].
  exact (Hsame eq_refl).
Defined.

Lemma too_few_arguments_witness :
  List.length ["pipeline"; "old.yaml"] < 3
  /\ exit_status (fst (main ["pipeline"; "old.yaml"] world)) = 0%Z
  /\ exit_status (fst (ResolveOnly.main ["pipeline"; "old.yaml"] world)) = 0%Z.
Proof.
  destruct (too_few_arguments (H := collaborators) ["pipeline"; "old.yaml"] world) as [Hfull Honly].
  assert (Hlen : List.length ["pipeline"; "old.yaml"] < 3) by (simpl; lia).
  split; [exact Hlen|]. split.
  - apply Hfull. simpl. lia.
  - apply Honly. exact Hlen.
Defined.

End MoreRuns.

(** * The design as worded, on concrete inputs *)

Section WordedRuns.
Import Demo.

(** C2 as worded fails when the rule file is absent: the validation of
    [old.yaml] returns the error of [loadRules] although the document has
    no finding at all. *)
Lemma error_without_findings :
  ~ fails_iff_findings (H := collaborators) "old.yaml" "absent.yaml" world.
Proof.
  intros [Hfails _].
  assert (Herr : exists err,
             fst (validateOpenAPIWithRules "old.yaml" "absent.yaml" world)
             = Ret (Some err)) by (eexists; vm_compute; reflexivity).
  apply (Hfails Herr). vm_compute. reflexivity.
Qed.


(** C6 as worded fails on a server URL that spells the scheme in
    capitals: its scheme is https and the server rule reports it. *)
Lemma https_in_capitals_reported :
  ~ one_finding_per_other_scheme (H := collaborators) tree_shouting
      "https" https_rule [].
Proof.
  intros Hclaim.
  destruct (Hclaim eq_refl eq_refl) as (findings & Hrun & Hcount).
  vm_compute in Hrun. injection Hrun as <-.
  vm_compute in Hcount. discriminate Hcount.
Qed.


(** The resolution of [dangling.yaml] reads the file once, returns the
    error of the resolver and writes nothing. *)
Lemma resolve_writes_last_witness :
  exists events,
    trace (snd (resolveOpenAPI "dangling.yaml" "out.yaml" world))
    = trace world ++ events
    /\ reads_of events = ["dangling.yaml"]
    /\ resolved_bytes (list_byte_of_string doc_dangling)
       = inl Samples.dangling_error
    /\ fst (resolveOpenAPI "dangling.yaml" "out.yaml" world)
       = Ret (Some Samples.dangling_error)
    /\ files (snd (resolveOpenAPI "dangling.yaml" "out.yaml" world)) = files world
    /\ writes_of events = [].
Proof.
  destruct (resolve_writes_last (H := collaborators) "dangling.yaml" "out.yaml"
              world) as (events & Htrace & Hreads & _ & Hfails & _).
  exists events.
  assert (Hres : resolved_bytes (list_byte_of_string doc_dangling)
                 = inl Samples.dangling_error) by reflexivity.
  destruct (Hfails (list_byte_of_string doc_dangling) Samples.dangling_error
              eq_refl Hres) as (Herr & Hfiles & Hwrites).
  auto 10.
Defined.

End WordedRuns.
